(** * Simulator_TrilliumWatts: the Streamlit solar-benefit dashboard

    A shallow embedding of [simulador_streamlit.py].  The script is one
    linear module: it loads a CSV of dated demand records, reads the sidebar
    widgets, filters the predicted records, draws the demand chart, and for
    every active capacity tier calls [calcular_beneficios], which computes
    four numbers with Python [float] arithmetic, appends them to the global
    list [resultados] and shows four metrics.

    Modelling choices:
    - Python [float] is IEEE binary64: Rocq's primitive [float], whose
      operations are the same correctly rounded ones.  Python's [/] raises
      [ZeroDivisionError] when the divisor compares equal to zero and is the
      IEEE division otherwise; [*] never raises.
    - The module's global variables are the fields of [Globals]; the page
      Streamlit has drawn so far is its field [page].  A statement of the
      script is a computation [M A] that transforms the globals and either
      returns or raises; what was drawn before an exception stays drawn.
    - pandas frames are copied by every operation the script uses
      ([sort_values], boolean indexing, [.copy()], [head]), so no two
      variables alias one frame and frames are modelled as values.
    - The input of a run is the frame that [pd.read_csv] makes of the
      file: dates parsed, demand values as floats, and the cells of the
      [Tipo] column typed as pandas types them (text, missing, number or
      truth value). *)

From Stdlib Require Import ZArith List String Ascii Bool Lia.
From Stdlib Require Import Floats DecimalString.
From Stdlib Require Import Sorting.Sorted Sorting.Permutation Sorting.Mergesort.
From Stdlib Require Import Orders.
Import ListNotations.

Set Warnings "-inexact-float".

Local Open Scope string_scope.
Local Open Scope Z_scope.

(** ** Strings *)

Definition is_space (c : ascii) : bool :=
  let n := nat_of_ascii c in
  (Nat.eqb n 32 || (Nat.leb 9 n && Nat.leb n 13))%bool.

(** [str.split()] with no argument: the maximal runs of non-blank
    characters.  [cur] is the word being read, in reverse. *)
Fixpoint split_aux (s : string) (cur : list ascii) : list string :=
  let flush := match cur with
               | [] => []
               | _ => [string_of_list_ascii (rev cur)]
               end in
  match s with
  | EmptyString => flush
  | String c r =>
      if is_space c then flush ++ split_aux r [] else split_aux r (c :: cur)
  end.

Definition split (s : string) : list string := split_aux s [].

Definition digit_of (c : ascii) : option Z :=
  let n := nat_of_ascii c in
  if (Nat.leb 48 n && Nat.leb n 57)%bool then Some (Z.of_nat (n - 48)) else None.

Fixpoint int_digits (s : string) (acc : Z) : option Z :=
  match s with
  | EmptyString => Some acc
  | String c r =>
      match digit_of c with
      | Some d => int_digits r (10 * acc + d)
      | None => None
      end
  end.

(** [int(s)] on a string of decimal digits; anything else is a
    [ValueError] (signs, blanks and underscores do not occur in the
    script's three options). *)
Definition int_of_str (s : string) : option Z :=
  match s with
  | EmptyString => None
  | _ => int_digits s 0
  end.

(** ["needle" in s]. *)
Fixpoint contains (needle s : string) : bool :=
  (prefix needle s ||
   match s with
   | EmptyString => false
   | String _ r => contains needle r
   end)%bool.

Definition upper_ascii (c : ascii) : ascii :=
  let n := nat_of_ascii c in
  if (Nat.leb 97 n && Nat.leb n 122)%bool then ascii_of_nat (n - 32) else c.

Definition lower_ascii (c : ascii) : ascii :=
  let n := nat_of_ascii c in
  if (Nat.leb 65 n && Nat.leb n 90)%bool then ascii_of_nat (n + 32) else c.

Fixpoint map_string (f : ascii -> ascii) (s : string) : string :=
  match s with
  | EmptyString => EmptyString
  | String c r => String (f c) (map_string f r)
  end.

(** [str.capitalize()]: first character upper case, the rest lower case.
    A string is its UTF-8 bytes.  The ASCII letters are mapped as Python
    maps them and the bytes of every other character are kept: this is
    Python's result on ASCII labels, and on labels that start with an ASCII
    character and whose non-ASCII letters are all lower case ("histórica",
    "Histórica"); Python also changes the case of non-ASCII letters. *)
Definition capitalize (s : string) : string :=
  match s with
  | EmptyString => EmptyString
  | String c r => String (upper_ascii c) (map_string lower_ascii r)
  end.

(** [str(n)] for an integer. *)
Definition str_of_int (n : Z) : string :=
  match n with
  | Z0 => "0"
  | Zpos p => NilEmpty.string_of_uint (Pos.to_uint p)
  | Zneg p => "-" ++ NilEmpty.string_of_uint (Pos.to_uint p)
  end.

(** ** Numbers *)

(** The conversion Python applies to an [int] operand of a mixed
    [int]/[float] product: exact below [2^53], which covers the horizons
    and the catalogue's capacities. *)
Definition float_of_int (n : Z) : float :=
  if n <? 0 then PrimFloat.opp (PrimFloat.of_uint63 (Uint63.of_Z (- n)))
  else PrimFloat.of_uint63 (Uint63.of_Z n).

(** ** Data model *)

(** A cell of the [Tipo] column as [pd.read_csv] delivers it: a text; a
    missing value (NaN: an empty cell); or, in a column that pandas has
    read as numbers or as truth values, a number or a truth value. *)
Inductive Celda :=
| Texto (s : string)
| Nulo
| Numero (x : float)
| Booleano (b : bool).

(** One line of the demand file: the values of the three columns the
    script reads. *)
Record DemandRecord := mkRecord {
  Fecha : Z;            (* the parsed date, as a time stamp *)
  ACTIVA : float;
  Tipo : Celda
}.

(** A frame: the names of its columns and its rows.  Where a frame lacks
    one of the three columns, the matching field of its rows is never read:
    every access goes through a check that raises first. *)
Record DataFrame := mkFrame {
  columns : list string;
  rows : list DemandRecord
}.

Definition has_column (c : string) (d : DataFrame) : bool :=
  existsb (String.eqb c) (columns d).

(** The dictionary [calcular_beneficios] appends to [resultados]. *)
Record Resultado := mkResultado {
  Escenario : string;
  Energia_kWh : float;
  Diesel_Ahorrado_L : float;
  CO2_Evitado_kg : float;
  Ahorro_Economico_COP : float
}.

Inductive Figure :=
| LineFigure (data : DataFrame) (x y color : string)
| BarFigure (data : list Resultado).

(** What the script asks Streamlit to draw, in order.  A [Metric] keeps
    the number and the text around it; the [,.0f] formatting of the number
    is Streamlit's presentation of it. *)
Inductive Element :=
| SidebarHeader (text : string)
| SidebarSubheader (text : string)
| SidebarSlider (label : string)
| SidebarSelectbox (label : string) (options : list string)
| SidebarCheckbox (label : string)
| SidebarNumberInput (label : string)
| Title (text : string)
| Subheader (text : string)
| Markdown (text : string)
| PlotlyChart (f : Figure)
| Expander (label : string)
| Metric (label : string) (before : string) (value : float) (after : string)
| Caption (text : string).

(** The values the user has set in the sidebar: what each widget call
    returns in this run of the script. *)
Inductive Choice := Op7 | Op15 | Op30.

Record Sidebar := mkSidebar {
  slider_H : float;
  slider_PR : float;
  select_horizonte : Choice;
  check_pequena : bool;
  check_mediana : bool;
  check_grande : bool;
  input_kwh : float;
  input_co2 : float;
  input_cop : float
}.

Inductive Exn :=
  ValueError | KeyError | IndexError | AttributeError | ZeroDivisionError.

(** The module's global variables and the page drawn so far.  A variable
    holds its initial value here until the script assigns it. *)
Record Globals := mkGlobals {
  df : DataFrame;
  H : float;
  PR : float;
  horizonte : string;
  dias : Z;
  escenarios : list (string * bool);
  kwh_por_litro : float;
  co2_por_litro : float;
  cop_diesel : float;
  df_predicha : DataFrame;
  df_sim : DataFrame;
  inicio_pred : option Z;
  fig : option Figure;
  resultados : list Resultado;
  page : list Element
}.

Definition empty_frame : DataFrame := mkFrame [] [].

Definition start : Globals :=
  mkGlobals empty_frame 0%float 0%float "" 0 [] 0%float 0%float 0%float
            empty_frame empty_frame None None [] [].

Definition set_df v g :=
  mkGlobals v (H g) (PR g) (horizonte g) (dias g) (escenarios g)
    (kwh_por_litro g) (co2_por_litro g) (cop_diesel g) (df_predicha g)
    (df_sim g) (inicio_pred g) (fig g) (resultados g) (page g).
Definition set_H v g :=
  mkGlobals (df g) v (PR g) (horizonte g) (dias g) (escenarios g)
    (kwh_por_litro g) (co2_por_litro g) (cop_diesel g) (df_predicha g)
    (df_sim g) (inicio_pred g) (fig g) (resultados g) (page g).
Definition set_PR v g :=
  mkGlobals (df g) (H g) v (horizonte g) (dias g) (escenarios g)
    (kwh_por_litro g) (co2_por_litro g) (cop_diesel g) (df_predicha g)
    (df_sim g) (inicio_pred g) (fig g) (resultados g) (page g).
Definition set_horizonte v g :=
  mkGlobals (df g) (H g) (PR g) v (dias g) (escenarios g)
    (kwh_por_litro g) (co2_por_litro g) (cop_diesel g) (df_predicha g)
    (df_sim g) (inicio_pred g) (fig g) (resultados g) (page g).
Definition set_dias v g :=
  mkGlobals (df g) (H g) (PR g) (horizonte g) v (escenarios g)
    (kwh_por_litro g) (co2_por_litro g) (cop_diesel g) (df_predicha g)
    (df_sim g) (inicio_pred g) (fig g) (resultados g) (page g).
Definition set_escenarios v g :=
  mkGlobals (df g) (H g) (PR g) (horizonte g) (dias g) v
    (kwh_por_litro g) (co2_por_litro g) (cop_diesel g) (df_predicha g)
    (df_sim g) (inicio_pred g) (fig g) (resultados g) (page g).
Definition set_kwh_por_litro v g :=
  mkGlobals (df g) (H g) (PR g) (horizonte g) (dias g) (escenarios g)
    v (co2_por_litro g) (cop_diesel g) (df_predicha g)
    (df_sim g) (inicio_pred g) (fig g) (resultados g) (page g).
Definition set_co2_por_litro v g :=
  mkGlobals (df g) (H g) (PR g) (horizonte g) (dias g) (escenarios g)
    (kwh_por_litro g) v (cop_diesel g) (df_predicha g)
    (df_sim g) (inicio_pred g) (fig g) (resultados g) (page g).
Definition set_cop_diesel v g :=
  mkGlobals (df g) (H g) (PR g) (horizonte g) (dias g) (escenarios g)
    (kwh_por_litro g) (co2_por_litro g) v (df_predicha g)
    (df_sim g) (inicio_pred g) (fig g) (resultados g) (page g).
Definition set_df_predicha v g :=
  mkGlobals (df g) (H g) (PR g) (horizonte g) (dias g) (escenarios g)
    (kwh_por_litro g) (co2_por_litro g) (cop_diesel g) v
    (df_sim g) (inicio_pred g) (fig g) (resultados g) (page g).
Definition set_df_sim v g :=
  mkGlobals (df g) (H g) (PR g) (horizonte g) (dias g) (escenarios g)
    (kwh_por_litro g) (co2_por_litro g) (cop_diesel g) (df_predicha g)
    v (inicio_pred g) (fig g) (resultados g) (page g).
Definition set_inicio_pred v g :=
  mkGlobals (df g) (H g) (PR g) (horizonte g) (dias g) (escenarios g)
    (kwh_por_litro g) (co2_por_litro g) (cop_diesel g) (df_predicha g)
    (df_sim g) v (fig g) (resultados g) (page g).
Definition set_fig v g :=
  mkGlobals (df g) (H g) (PR g) (horizonte g) (dias g) (escenarios g)
    (kwh_por_litro g) (co2_por_litro g) (cop_diesel g) (df_predicha g)
    (df_sim g) (inicio_pred g) v (resultados g) (page g).
Definition set_resultados v g :=
  mkGlobals (df g) (H g) (PR g) (horizonte g) (dias g) (escenarios g)
    (kwh_por_litro g) (co2_por_litro g) (cop_diesel g) (df_predicha g)
    (df_sim g) (inicio_pred g) (fig g) v (page g).
Definition set_page v g :=
  mkGlobals (df g) (H g) (PR g) (horizonte g) (dias g) (escenarios g)
    (kwh_por_litro g) (co2_por_litro g) (cop_diesel g) (df_predicha g)
    (df_sim g) (inicio_pred g) (fig g) (resultados g) v.

(** ** Statements: globals in, globals out, return or raise *)

Definition M (A : Type) : Type := Globals -> (Exn + A) * Globals.

Definition ret {A} (a : A) : M A := fun g => (inr a, g).

Definition bind {A B} (m : M A) (k : A -> M B) : M B :=
  fun g => match m g with
           | (inl e, g') => (inl e, g')
           | (inr a, g') => k a g'
           end.

Definition raise {A} (e : Exn) : M A := fun g => (inl e, g).

(** Reading a global, and the assignment [x = v]. *)
Definition read {A} (x : Globals -> A) : M A := fun g => (inr (x g), g).
Definition assign (upd : Globals -> Globals) : M unit := fun g => (inr tt, upd g).

(** Any Streamlit call that draws: the element goes to the end of the page. *)
Definition draw (e : Element) : M unit :=
  assign (fun g => set_page (page g ++ [e]) g).

Definition of_option {A} (e : Exn) (o : option A) : M A :=
  match o with
  | Some a => ret a
  | None => raise e
  end.

Declare Scope py_scope.
Delimit Scope py_scope with py.
Notation "x <- c1 ;; c2" := (bind c1 (fun x => c2))
  (at level 61, c1 at next level, right associativity) : py_scope.
Notation "c1 ;; c2" := (bind c1 (fun _ => c2))
  (at level 61, right associativity) : py_scope.
Local Open Scope py_scope.

Fixpoint for_each {A} (xs : list A) (body : A -> M unit) : M unit :=
  match xs with
  | [] => ret tt
  | x :: r => body x ;; for_each r body
  end.

(** ** pandas and plotly, as far as the script uses them *)

(** [pd.read_csv(file, parse_dates=cols)]: a column named in
    [parse_dates] that the file lacks is a [ValueError]. *)
Definition pd_read_csv (file : DataFrame) (parse_dates : list string) : M DataFrame :=
  if forallb (fun c => has_column c file) parse_dates then ret file
  else raise ValueError.

Module FechaOrder <: TotalLeBool.
Definition t := DemandRecord.
Definition leb (a b : t) : bool := Fecha a <=? Fecha b.
Lemma leb_total : forall a b, leb a b = true \/ leb b a = true.
Proof.
  intros a b; unfold leb.
  destruct (Z.leb_spec (Fecha a) (Fecha b)); [now left|].
  right; apply Z.leb_le; lia.
Qed.
End FechaOrder.

Module FechaSort := Sort FechaOrder.

(** [d.sort_values("Fecha")]: a new frame, rows by ascending date.  The
    order among rows of equal date is the one this merge sort leaves, which
    need not be the one pandas' default sort leaves; no statement below
    depends on the order among equal dates. *)
Definition sort_values_Fecha (d : DataFrame) : M DataFrame :=
  if has_column "Fecha" d then ret (mkFrame (columns d) (FechaSort.sort (rows d)))
  else raise KeyError.

(** [d["Tipo"]] and [d["Fecha"]], read. *)
Definition getitem_Tipo (d : DataFrame) : M (list Celda) :=
  if has_column "Tipo" d then ret (map Tipo (rows d)) else raise KeyError.

Definition getitem_Fecha (d : DataFrame) : M (list Z) :=
  if has_column "Fecha" d then ret (map Fecha (rows d)) else raise KeyError.

(** [d[mask]]: the rows whose entry in the boolean series is true. *)
Fixpoint select_rows (rs : list DemandRecord) (mask : list bool) : list DemandRecord :=
  match rs, mask with
  | r :: rs', b :: mask' =>
      if b then r :: select_rows rs' mask' else select_rows rs' mask'
  | _, _ => []
  end.

Definition getitem_mask (d : DataFrame) (mask : list bool) : DataFrame :=
  mkFrame (columns d) (select_rows (rows d) mask).

Definition copy (d : DataFrame) : DataFrame := d.

(** [d.head(n)]: the first [n] rows, or all but the last [-n] for a
    negative [n]. *)
Definition head (n : Z) (d : DataFrame) : DataFrame :=
  mkFrame (columns d)
    (if 0 <=? n then firstn (Z.to_nat n) (rows d)
     else firstn (List.length (rows d) - Z.to_nat (- n)) (rows d)).

(** [d["Tipo"] = values]: the column is replaced in place, row by row
    (and added to the frame when it was not there). *)
Fixpoint set_Tipo (rs : list DemandRecord) (values : list Celda) : list DemandRecord :=
  match rs, values with
  | r :: rs', v :: values' => mkRecord (Fecha r) (ACTIVA r) v :: set_Tipo rs' values'
  | _, _ => rs
  end.

Definition setitem_Tipo (d : DataFrame) (values : list Celda) : DataFrame :=
  mkFrame (if has_column "Tipo" d then columns d else columns d ++ ["Tipo"])
          (set_Tipo (rows d) values).

(** [series == s] with a string [s], cell by cell: a text equal to [s];
    a missing value, a number and a truth value compare unequal. *)
Definition eq_str (s : string) (c : Celda) : bool :=
  match c with
  | Texto t => String.eqb t s
  | _ => false
  end.

Definition es_texto (c : Celda) : bool :=
  match c with
  | Texto _ => true
  | _ => false
  end.

(** [series.str]: before any string method runs, pandas infers the kind
    of the values, missing ones aside, and raises [AttributeError] ("Can
    only use .str accessor with string values") unless they are text.  A
    column read from a file holds text as soon as one of its cells does; a
    column whose cells are all numbers, all truth values or all empty is
    not text; a column without rows is accepted. *)
Definition admite_str (col : list Celda) : bool :=
  match col with
  | [] => true
  | _ :: _ => existsb es_texto col
  end.

Definition str_accessor (col : list Celda) : M (list Celda) :=
  if admite_str col then ret col else raise AttributeError.

(** [series.str.capitalize()], cell by cell: a text is capitalised, any
    other value gives a missing value. *)
Definition capitalizar (c : Celda) : Celda :=
  match c with
  | Texto s => Texto (capitalize s)
  | _ => Nulo
  end.

Definition str_capitalize (col : list Celda) : list Celda := map capitalizar col.

(** [series.min()] of a column of dates. *)
Definition series_min (xs : list Z) : option Z :=
  match xs with
  | [] => None
  | x :: r => Some (fold_left Z.min r x)
  end.

(** [px.line(d, x=.., y=.., color=..)]: a column name the frame lacks is
    a [ValueError]. *)
Definition px_line (d : DataFrame) (x y color : string) : M Figure :=
  if (has_column x d && has_column y d && has_column color d)%bool
  then ret (LineFigure d x y color)
  else raise ValueError.

(** ** Streamlit widgets: draw, and return the user's current value *)

Definition st_sidebar_slider (label : string) (value : float) : M float :=
  draw (SidebarSlider label) ;; ret value.

Definition option_of (c : Choice) (options : list string) : string :=
  nth (match c with Op7 => 0 | Op15 => 1 | Op30 => 2 end)%nat options "".

Definition st_sidebar_selectbox (label : string) (options : list string)
           (c : Choice) : M string :=
  draw (SidebarSelectbox label options) ;; ret (option_of c options).

Definition st_sidebar_checkbox (label : string) (value : bool) : M bool :=
  draw (SidebarCheckbox label) ;; ret value.

Definition st_sidebar_number_input (label : string) (value : float) : M float :=
  draw (SidebarNumberInput label) ;; ret value.

(** [a / b] on floats. *)
Definition truediv (a b : float) : M float :=
  if (b =? 0)%float then raise ZeroDivisionError else ret (a / b)%float.

(** ** The script, block by block in the order of the source *)

(** [# --- Cargar datos ---] *)
Definition cargar_datos (file : DataFrame) : M unit :=
  d <- pd_read_csv file ["Fecha"] ;;
  assign (set_df d) ;;
  d <- read df ;;
  d <- sort_values_Fecha d ;;
  assign (set_df d).

(** [# --- Parámetros desde la interfaz ---] *)
Definition parametros (ui : Sidebar) : M unit :=
  draw (SidebarHeader "🔧 Parámetros de Simulación") ;;
  v <- st_sidebar_slider "Radiación Solar H (kWh/m²)" (slider_H ui) ;;
  assign (set_H v) ;;
  v <- st_sidebar_slider "Performance Ratio (PR)" (slider_PR ui) ;;
  assign (set_PR v) ;;
  v <- st_sidebar_selectbox "Horizonte de Predicción"
         ["7 días"; "15 días"; "30 días"] (select_horizonte ui) ;;
  assign (set_horizonte v) ;;
  h <- read horizonte ;;
  w <- of_option IndexError (nth_error (split h) 0) ;;
  n <- of_option ValueError (int_of_str w) ;;
  assign (set_dias n) ;;
  draw (SidebarSubheader "Escenarios de Capacidad") ;;
  a <- st_sidebar_checkbox "Pequeña (100 kW)" (check_pequena ui) ;;
  b <- st_sidebar_checkbox "Mediana (1 MW)" (check_mediana ui) ;;
  c <- st_sidebar_checkbox "Grande (5 MW)" (check_grande ui) ;;
  assign (set_escenarios [("Pequeña (100 kW)", a);
                          ("Mediana (1 MW)", b);
                          ("Grande (5 MW)", c)]) ;;
  v <- st_sidebar_number_input "kWh/L (Diesel)" (input_kwh ui) ;;
  assign (set_kwh_por_litro v) ;;
  v <- st_sidebar_number_input "CO₂/L (kg)" (input_co2 ui) ;;
  assign (set_co2_por_litro v) ;;
  v <- st_sidebar_number_input "COP/L (Precio diesel)" (input_cop ui) ;;
  assign (set_cop_diesel v).

(** [# --- Filtrar datos predichos por cantidad de días ---] *)
Definition filtrar_datos_predichos : M unit :=
  d <- read df ;;
  col <- getitem_Tipo d ;;
  assign (set_df_predicha
            (copy (getitem_mask d (map (eq_str "predicha") col)))) ;;
  p <- read df_predicha ;;
  n <- read dias ;;
  assign (set_df_sim (head n p)).

(** [# --- Título y explicación ---] *)
Definition titulo_y_explicacion : M unit :=
  draw (Title "☀️ Simulación de Energía Solar - Leticia, Colombia") ;;
  draw (Subheader "📈 Demanda Energética Predicha (Horizonte Seleccionado)") ;;
  draw (Markdown "🗓️ Mostrando demanda energética para los próximos **30 días** predichos.").

(** [# --- Asegurar formato y consistencia en los tipos ---] *)
Definition asegurar_formato : M unit :=
  d <- read df ;;
  col <- getitem_Tipo d ;;
  s <- str_accessor col ;;
  assign (fun g => set_df (setitem_Tipo (df g) (str_capitalize s)) g) ;;
  d <- read df ;;
  d <- sort_values_Fecha d ;;
  assign (set_df d).

(** [# --- Detectar la fecha de inicio de predicción ---] *)
Definition detectar_inicio : M unit :=
  d <- read df ;;
  col <- getitem_Tipo d ;;
  if existsb (eq_str "Predicha") col then
    col <- getitem_Tipo d ;;
    fechas <- getitem_Fecha (getitem_mask d (map (eq_str "Predicha") col)) ;;
    assign (set_inicio_pred (series_min fechas))
  else
    assign (set_inicio_pred None).

(** [# --- Crear la gráfica de línea ---] up to
    [# --- Mostrar gráfico en Streamlit ---]; [update_traces] and
    [update_layout] only restyle the figure. *)
Definition grafica_de_linea : M unit :=
  d <- read df ;;
  f <- px_line d "Fecha" "ACTIVA" "Tipo" ;;
  assign (set_fig (Some f)) ;;
  draw (PlotlyChart f).

(** [def calcular_beneficios(capacidad_kw, label)] *)
Definition calcular_beneficios (capacidad_kw : float) (label : string) : M unit :=
  h <- read H ;;
  pr <- read PR ;;
  n <- read dias ;;
  let energia_generada_kwh := (capacidad_kw * h * pr * float_of_int n)%float in
  k <- read kwh_por_litro ;;
  diesel_ahorrado_l <- truediv energia_generada_kwh k ;;
  c <- read co2_por_litro ;;
  let co2_ev_l := (diesel_ahorrado_l * c)%float in
  p <- read cop_diesel ;;
  let ahorro_cop := (diesel_ahorrado_l * p)%float in
  assign (fun g => set_resultados
            (resultados g ++
             [mkResultado label energia_generada_kwh diesel_ahorrado_l
                          co2_ev_l ahorro_cop]) g) ;;
  draw (Metric (label ++ " - Energía Generada Total") "" energia_generada_kwh " kWh") ;;
  draw (Metric (label ++ " - Diésel Ahorrado") "" diesel_ahorrado_l " L") ;;
  draw (Metric (label ++ " - CO₂ Evitado") "" co2_ev_l " kg") ;;
  draw (Metric (label ++ " - Ahorro Económico") "$" ahorro_cop " COP").

(** The capacity of a tier, from its name; the catalogue's integers are
    converted as Python converts them in [capacidad_kw * H]. *)
Definition capacidad_de (nombre : string) : float :=
  float_of_int (if contains "Pequeña" nombre then 100
                else if contains "Mediana" nombre then 1000
                else 5000).

(** [# --- Beneficios por escenario ---] *)
Definition beneficios_por_escenario : M unit :=
  draw (Subheader "🌞 Beneficios por Escenario Solar") ;;
  n <- read dias ;;
  draw (Markdown ("🧮 Cálculo acumulado de beneficios para un horizonte de **"
                  ++ str_of_int n ++ " días**.")) ;;
  assign (set_resultados []) ;;
  es <- read escenarios ;;
  for_each es (fun '(nombre, activo) =>
    if activo : bool then
      let capacidad_kw := capacidad_de nombre in
      draw (Expander ("🔋 Resultados para " ++ nombre)) ;;
      calcular_beneficios capacidad_kw nombre
    else ret tt).

(** [# --- Gráfica de barras logarítmica para comparación ---] *)
Definition comparativa : M unit :=
  rs <- read resultados ;;
  match rs with
  | [] => ret tt
  | _ :: _ =>
      draw (Subheader "📊 Comparativa de Beneficios por Escenario") ;;
      draw (PlotlyChart (BarFigure rs))
  end.

(** [# --- Nota final ---] *)
Definition nota_final : M unit :=
  draw (Caption "Datos de demanda simulada para Leticia, Amazonas. Parámetros personalizables para análisis energético, económico y ambiental.").

(** The whole module, run once per interaction on the file and the
    sidebar's current values. *)
Definition script (file : DataFrame) (ui : Sidebar) : M unit :=
  cargar_datos file ;;
  parametros ui ;;
  filtrar_datos_predichos ;;
  titulo_y_explicacion ;;
  asegurar_formato ;;
  detectar_inicio ;;
  grafica_de_linea ;;
  beneficios_por_escenario ;;
  comparativa ;;
  nota_final.

Definition run (file : DataFrame) (ui : Sidebar) : (Exn + unit) * Globals :=
  script file ui start.

(** ** Definitions used to state the properties *)

(** The specification's BenefitResult, formula by formula:
    [energy_kwh = capacity_kw * H * PR * horizon_days],
    [diesel_liters = energy_kwh / kwh_per_liter],
    [co2_kg = diesel_liters * co2_per_liter],
    [cost = diesel_liters * price_per_liter]. *)
Definition BenefitResult (capacity_kw h pr horizon_days kwh_per_liter
                          co2_per_liter price_per_liter : float)
           (scenario_label : string) : Resultado :=
  let energy_kwh := (capacity_kw * h * pr * horizon_days)%float in
  let diesel_liters := (energy_kwh / kwh_per_liter)%float in
  let co2_kg := (diesel_liters * co2_per_liter)%float in
  let cost := (diesel_liters * price_per_liter)%float in
  mkResultado scenario_label energy_kwh diesel_liters co2_kg cost.

(** The BenefitResult of a capacity under the parameters held in the
    globals. *)
Definition beneficio (g : Globals) (capacidad_kw : float) (label : string) : Resultado :=
  BenefitResult capacidad_kw (H g) (PR g) (float_of_int (dias g))
                (kwh_por_litro g) (co2_por_litro g) (cop_diesel g) label.

(** The four metrics drawn for a result. *)
Definition metrics (label : string) (r : Resultado) : list Element :=
  [Metric (label ++ " - Energía Generada Total") "" (Energia_kWh r) " kWh";
   Metric (label ++ " - Diésel Ahorrado") "" (Diesel_Ahorrado_L r) " L";
   Metric (label ++ " - CO₂ Evitado") "" (CO2_Evitado_kg r) " kg";
   Metric (label ++ " - Ahorro Económico") "$" (Ahorro_Economico_COP r) " COP"].

(** The globals after a successful call of [calcular_beneficios]. *)
Definition con_beneficio (g : Globals) (capacidad_kw : float) (label : string) : Globals :=
  set_page (page g ++ metrics label (beneficio g capacidad_kw label))
    (set_resultados (resultados g ++ [beneficio g capacidad_kw label]) g).

(** The number of days of each option of the horizon select box. *)
Definition dias_de (c : Choice) : Z :=
  match c with Op7 => 7 | Op15 => 15 | Op30 => 30 end.

(** Globals holding the end-to-end scenario of the specification. *)
Definition escenario_e2e : Globals :=
  set_H 4.5 (set_PR 0.80 (set_dias 30 (set_kwh_por_litro 3.0
    (set_co2_por_litro 2.2 (set_cop_diesel 2553.59 start))))).

(** The sidebar as [parametros] draws it, and the globals it leaves. *)
Definition barra_lateral : list Element :=
  [SidebarHeader "🔧 Parámetros de Simulación";
   SidebarSlider "Radiación Solar H (kWh/m²)";
   SidebarSlider "Performance Ratio (PR)";
   SidebarSelectbox "Horizonte de Predicción" ["7 días"; "15 días"; "30 días"];
   SidebarSubheader "Escenarios de Capacidad";
   SidebarCheckbox "Pequeña (100 kW)";
   SidebarCheckbox "Mediana (1 MW)";
   SidebarCheckbox "Grande (5 MW)";
   SidebarNumberInput "kWh/L (Diesel)";
   SidebarNumberInput "CO₂/L (kg)";
   SidebarNumberInput "COP/L (Precio diesel)"].

Definition tres_escenarios (ui : Sidebar) : list (string * bool) :=
  [("Pequeña (100 kW)", check_pequena ui);
   ("Mediana (1 MW)", check_mediana ui);
   ("Grande (5 MW)", check_grande ui)].

Definition con_parametros (ui : Sidebar) (g : Globals) : Globals :=
  mkGlobals (df g) (slider_H ui) (slider_PR ui)
    (option_of (select_horizonte ui) ["7 días"; "15 días"; "30 días"])
    (dias_de (select_horizonte ui)) (tres_escenarios ui)
    (input_kwh ui) (input_co2 ui) (input_cop ui)
    (df_predicha g) (df_sim g) (inicio_pred g) (fig g) (resultados g)
    (page g ++ barra_lateral).

(** The elements of [titulo_y_explicacion]; the last is the caption of
    the demand overview. *)
Definition leyenda_demanda : Element :=
  Markdown "🗓️ Mostrando demanda energética para los próximos **30 días** predichos.".

Definition titulo : list Element :=
  [Title "☀️ Simulación de Energía Solar - Leticia, Colombia";
   Subheader "📈 Demanda Energética Predicha (Horizonte Seleccionado)";
   leyenda_demanda].

(** The caption of the benefits section for a horizon of [n] days. *)
Definition leyenda_beneficios (n : Z) : Element :=
  Markdown ("🧮 Cálculo acumulado de beneficios para un horizonte de **"
            ++ str_of_int n ++ " días**.").

(** The selector of the demand filter, and the frame it selects. *)
Definition es_predicha (r : DemandRecord) : bool := eq_str "predicha" (Tipo r).

Definition predichos (d : DataFrame) : DataFrame :=
  mkFrame (columns d) (filter es_predicha (rows d)).

(** A record with its label capitalised, and the frame
    [asegurar_formato] leaves. *)
Definition normalizar (r : DemandRecord) : DemandRecord :=
  mkRecord (Fecha r) (ACTIVA r) (capitalizar (Tipo r)).

Definition normalizado (d : DataFrame) : DataFrame :=
  mkFrame (columns d) (FechaSort.sort (map normalizar (rows d))).

(** The selector of [detectar_inicio], applied after the labels were
    capitalised, and the date it finds. *)
Definition es_Predicha (r : DemandRecord) : bool := eq_str "Predicha" (Tipo r).

Definition inicio_de (d : DataFrame) : option Z :=
  if existsb (eq_str "Predicha") (map Tipo (rows d))
  then series_min (map Fecha (filter es_Predicha (rows d)))
  else None.

Definition grafica (d : DataFrame) : Figure := LineFigure d "Fecha" "ACTIVA" "Tipo".

(** The frame as [cargar_datos] leaves it. *)
Definition cargado (file : DataFrame) : DataFrame :=
  mkFrame (columns file) (FechaSort.sort (rows file)).

Definition tiene_columnas (file : DataFrame) : bool :=
  (has_column "Fecha" file && has_column "ACTIVA" file && has_column "Tipo" file)%bool.

(** The [Tipo] column of a frame passes the check of [.str]. *)
Definition Tipo_es_texto (d : DataFrame) : bool := admite_str (map Tipo (rows d)).

(** The files on which a run gets as far as the benefits section: the
    three columns are there and the [Tipo] column is text. *)
Definition llega_a_beneficios (file : DataFrame) : bool :=
  (tiene_columnas file && Tipo_es_texto file)%bool.

(** Drawing a list of elements one after the other. *)
Definition draw_all (es : list Element) (p : list Element) : list Element :=
  fold_left (fun p e => (p ++ [e])%list) es p.

(** Charts and metrics, among the elements of a page. *)
Definition es_grafica_o_metrica (e : Element) : bool :=
  match e with
  | PlotlyChart _ | Metric _ _ _ _ => true
  | _ => false
  end.

(** A statement leaves a global (or any reading [x] of the globals)
    as it found it, whether it returns or raises. *)
Definition preserves {A X} (x : Globals -> X) (m : M A) : Prop :=
  forall g, x (snd (m g)) = x g.

(** A statement only adds to the end of the page. *)
Definition page_grows {A} (m : M A) : Prop :=
  forall g, exists es, page (snd (m g)) = (page g ++ es)%list.

(** Two states of the globals that agree on the parameters of the
    benefit calculation and on the result list. *)
Definition mismos_parametros (g1 g2 : Globals) : Prop :=
  H g1 = H g2 /\ PR g1 = PR g2 /\ dias g1 = dias g2 /\
  escenarios g1 = escenarios g2 /\
  kwh_por_litro g1 = kwh_por_litro g2 /\
  co2_por_litro g1 = co2_por_litro g2 /\
  cop_diesel g1 = cop_diesel g2.

Definition mismos_beneficios (g1 g2 : Globals) : Prop :=
  mismos_parametros g1 g2 /\ resultados g1 = resultados g2.

(** A statement whose outcome and results are a function of the
    parameters and the result list alone. *)
Definition solo_parametros {A} (m : M A) : Prop :=
  forall g1 g2, mismos_beneficios g1 g2 ->
    fst (m g1) = fst (m g2) /\ mismos_beneficios (snd (m g1)) (snd (m g2)).


(** The globals when the script reaches its successive blocks, for a
    file that has the columns read up to there. *)
Definition tras_parametros (file : DataFrame) (ui : Sidebar) : Globals :=
  con_parametros ui (set_df (cargado file) start).

Definition tras_filtro (file : DataFrame) (ui : Sidebar) : Globals :=
  let g := tras_parametros file ui in
  set_df_sim (head (dias g) (predichos (df g)))
    (set_df_predicha (predichos (df g)) g).

Definition tras_titulo (file : DataFrame) (ui : Sidebar) : Globals :=
  let g := tras_filtro file ui in
  set_page (page g ++ titulo) g.

Definition tras_deteccion (file : DataFrame) (ui : Sidebar) : Globals :=
  let g := tras_filtro file ui in
  set_inicio_pred (inicio_de (normalizado (df g)))
    (set_df (normalizado (df g))
       (set_page (page g ++ titulo) g)).

Definition tras_grafica (file : DataFrame) (ui : Sidebar) : Globals :=
  let g := tras_deteccion file ui in
  set_page (page g ++ [PlotlyChart (grafica (df g))])
    (set_fig (Some (grafica (df g))) g).

(** The rest of the script from the benefits section on. *)
Definition desde_beneficios : M unit :=
  beneficios_por_escenario ;; comparativa ;; nota_final.

(** The metrics among the elements of a page. *)
Definition es_metrica (e : Element) : bool :=
  match e with
  | Metric _ _ _ _ => true
  | _ => false
  end.

(** Globals of the end-to-end scenario with a negative, and with a
    zero, kWh-per-litre constant. *)
Definition escenario_kwh_negativo : Globals :=
  set_kwh_por_litro (-3.0) escenario_e2e.

Definition escenario_kwh_cero : Globals :=
  set_kwh_por_litro 0 escenario_e2e.

(** A demand file with the three columns, and sidebars that hold the
    default values of the script's sliders, check boxes and number inputs
    with the horizon of 30 days selected (the select box itself starts at
    7 days), and the same with a zero kWh-per-litre constant. *)
Definition archivo_ejemplo : DataFrame :=
  mkFrame ["Fecha"; "ACTIVA"; "Tipo"]
    [mkRecord 3 120.5 (Texto "predicha"); mkRecord 1 100 (Texto "historica");
     mkRecord 2 110 (Texto "historica"); mkRecord 4 130 (Texto "predicha")].

Definition barra_por_defecto : Sidebar :=
  mkSidebar 4.5 0.80 Op30 true true true 3.0 2.2 2553.59.

Definition barra_kwh_cero : Sidebar :=
  mkSidebar 4.5 0.80 Op30 true true true 0 2.2 2553.59.

(** The body of the loop over the capacity tiers. *)
Definition por_escenario (e : string * bool) : M unit :=
  let '(nombre, activo) := e in
  if activo : bool then
    let capacidad_kw := capacidad_de nombre in
    draw (Expander ("🔋 Resultados para " ++ nombre)) ;;
    calcular_beneficios capacidad_kw nombre
  else ret tt.

(** Date order on records. *)
Definition por_fecha (a b : DemandRecord) : Prop := Fecha a <= Fecha b.

(** A file with ten predicted records among historical ones, in no
    particular order. *)
Definition archivo_diez : DataFrame :=
  mkFrame ["Fecha"; "ACTIVA"; "Tipo"]
    (map (fun i => mkRecord i 100 (Texto "historica")) [3; 1; 2] ++
     map (fun i => mkRecord i 120 (Texto "predicha"))
         [13; 4; 12; 5; 11; 6; 10; 7; 9; 8]).

(** A file whose predicted records are labelled in other letter cases. *)
Definition archivo_mayusculas : DataFrame :=
  mkFrame ["Fecha"; "ACTIVA"; "Tipo"]
    [mkRecord 1 100 (Texto "historica"); mkRecord 2 110 (Texto "Predicha");
     mkRecord 3 120 (Texto "PREDICHA")].

(** A file without the kind column. *)
Definition archivo_sin_Tipo : DataFrame :=
  mkFrame ["Fecha"; "ACTIVA"]
    [mkRecord 1 100 Nulo; mkRecord 2 110 Nulo].

(** Files whose kind column pandas reads as numbers, and as all empty. *)
Definition archivo_numerico : DataFrame :=
  mkFrame ["Fecha"; "ACTIVA"; "Tipo"]
    [mkRecord 2 110 (Numero 1); mkRecord 1 100 (Numero 0)].

Definition archivo_en_blanco : DataFrame :=
  mkFrame ["Fecha"; "ACTIVA"; "Tipo"]
    [mkRecord 2 110 Nulo; mkRecord 1 100 Nulo].

(** The sidebar as the script first shows it (the horizon of 7 days
    selected), and a sidebar with a zero kWh-per-litre constant and no tier
    checked. *)
Definition barra_siete : Sidebar :=
  mkSidebar 4.5 0.80 Op7 true true true 3.0 2.2 2553.59.


(** The globals when the loop over the tiers starts. *)
Definition inicio_beneficios (g : Globals) : Globals :=
  set_resultados []
    (set_page (page g ++ [Subheader "🌞 Beneficios por Escenario Solar";
                          leyenda_beneficios (dias g)]) g).

(** Two neighbouring capacities just above 1000 kW. *)
Definition capacidad_a : float := 1000.0000000000001.
Definition capacidad_b : float := 1000.0000000000002.

(** ** Definitions used to state the monotonicity of binary64 rounding *)

(** The position of a shift record among the quarter-units: its
    mantissa, then the round bit, then the sticky bit. *)
Definition rank (mrs : shr_record) : Z :=
  4 * shr_m mrs + 2 * Z.b2z (shr_r mrs) + Z.b2z (shr_s mrs).

(** The rank of the quotient [A / B]: twice the floor of its double,
    plus one when the double is not an integer. *)
Definition rk (A B : Z) : Z :=
  2 * (2 * A / B) + (if (2 * A) mod B =? 0 then 0 else 1).

(** A shift record rounded to the nearest integer, ties to even. *)
Definition rne (mrs : shr_record) : Z :=
  round_nearest_even (shr_m mrs) (loc_of_shr_record mrs).

(** The float that the second half of [binary_round_aux] makes of a
    rounded mantissa [m <= 2^prec] at exponent [e]. *)
Definition finish (prec emax : Z) (sx : bool) (m e : Z) : spec_float :=
  if m =? 0 then S754_zero sx
  else if m <? 2 ^ prec then
    if e <=? emax - prec then S754_finite sx (Z.to_pos m) e
    else S754_infinity sx
  else
    if e + 1 <=? emax - prec
    then S754_finite sx (Z.to_pos (2 ^ (prec - 1))) (e + 1)
    else S754_infinity sx.

(** Non-negative floats: [+0], [-0], positive finite numbers and
    [+infinity]. *)
Definition nonneg (x : spec_float) : bool :=
  match x with
  | S754_zero _ => true
  | S754_finite s _ _ => negb s
  | S754_infinity s => negb s
  | S754_nan => false
  end.

(** The exponent that [SFdiv_core_binary] chooses for the quotient. *)
Definition div_exp (prec emax : Z) (m1 e1 m2 e2 : Z) : Z :=
  Z.min (fexp prec emax (Zdigits2 m1 + e1 - (Zdigits2 m2 + e2))) (e1 - e2).

(** Positive finite floats: what a slider or a number input holds when
    the user has set a positive number. *)
Definition positivo_finito (x : float) : bool :=
  ((0 <? x) && (x <? infinity))%float.

(** ** Definitions used to state the properties of a whole run *)

(** The names of the checked tiers, in the order of the dictionary. *)
Definition activos (es : list (string * bool)) : list string :=
  map fst (filter snd es).

(** What the loop records and draws for one checked tier. *)
Definition beneficio_de (g : Globals) (nombre : string) : Resultado :=
  beneficio g (capacidad_de nombre) nombre.

Definition tarjeta (g : Globals) (nombre : string) : list Element :=
  Expander ("🔋 Resultados para " ++ nombre)
  :: metrics nombre (beneficio_de g nombre).

(** The elements of [comparativa] for a result list. *)
Definition barras (rs : list Resultado) : list Element :=
  match rs with
  | [] => []
  | _ :: _ => [Subheader "📊 Comparativa de Beneficios por Escenario";
               PlotlyChart (BarFigure rs)]
  end.

Definition nota : Element :=
  Caption "Datos de demanda simulada para Leticia, Amazonas. Parámetros personalizables para análisis energético, económico y ambiental.".

(** Some tier is checked in the sidebar. *)
Definition algun_escenario (ui : Sidebar) : bool :=
  (check_pequena ui || check_mediana ui || check_grande ui)%bool.

(** The outcome of a run, read off the file's header, the kind of values
    in its [Tipo] column, and the sidebar. *)
Definition resultado_esperado (file : DataFrame) (ui : Sidebar) : Exn + unit :=
  if negb (has_column "Fecha" file) then inl ValueError
  else if negb (has_column "Tipo" file) then inl KeyError
  else if negb (Tipo_es_texto file) then inl AttributeError
  else if negb (has_column "ACTIVA" file) then inl ValueError
  else if ((input_kwh ui =? 0)%float && algun_escenario ui)%bool
       then inl ZeroDivisionError
  else inr tt.

(** The BenefitResult of a capacity under the sidebar's values. *)
Definition beneficio_ui (ui : Sidebar) (capacity_kw : float) (label : string) : Resultado :=
  BenefitResult capacity_kw (slider_H ui) (slider_PR ui)
    (float_of_int (dias_de (select_horizonte ui)))
    (input_kwh ui) (input_co2 ui) (input_cop ui) label.

(** The result list of a completed run: one entry per checked tier, in
    the order of the catalogue. *)
Definition resultados_ui (ui : Sidebar) : list Resultado :=
  ((if check_pequena ui then [beneficio_ui ui 100 "Pequeña (100 kW)"] else []) ++
   (if check_mediana ui then [beneficio_ui ui 1000 "Mediana (1 MW)"] else []) ++
   (if check_grande ui then [beneficio_ui ui 5000 "Grande (5 MW)"] else []))%list.

(** The benefits section of a completed run: per checked tier an
    expander and its four metrics. *)
Definition tarjeta_ui (r : Resultado) : list Element :=
  Expander ("🔋 Resultados para " ++ Escenario r) :: metrics (Escenario r) r.

Definition seccion_beneficios (ui : Sidebar) : list Element :=
  ([Subheader "🌞 Beneficios por Escenario Solar";
    leyenda_beneficios (dias_de (select_horizonte ui))] ++
   flat_map tarjeta_ui (resultados_ui ui))%list.

(** A record that the chart shows as predicted: its label is a text
    that capitalises to "Predicha". *)
Definition se_muestra_predicha (r : DemandRecord) : Prop :=
  exists s, Tipo r = Texto s /\ capitalize s = "Predicha".
(** * Properties *)

(** ** Comparisons of a float against zero *)

Lemma Prim2SF_zero : Prim2SF 0 = S754_zero false.
Proof. reflexivity. Qed.

Lemma eqb_zero_of_pos (k : float) :
  (0 <? k)%float = true -> (k =? 0)%float = false.
Proof.
  rewrite ltb_spec, eqb_spec, Prim2SF_zero.
  destruct (Prim2SF k) as [s|s| |s m e]; try destruct s; cbn; congruence.
Qed.

Lemma eqb_zero_of_neg (k : float) :
  (k <? 0)%float = true -> (k =? 0)%float = false.
Proof.
  rewrite ltb_spec, eqb_spec, Prim2SF_zero.
  destruct (Prim2SF k) as [s|s| |s m e]; try destruct s; cbn; congruence.
Qed.

(** ** Running statements *)

Lemma bind_ok {A B} (m : M A) (k : A -> M B) g a g' :
  m g = (inr a, g') -> bind m k g = k a g'.
Proof. unfold bind; intros ->; reflexivity. Qed.

Lemma bind_err {A B} (m : M A) (k : A -> M B) g e g' :
  m g = (inl e, g') -> bind m k g = (inl e, g').
Proof. unfold bind; intros ->; reflexivity. Qed.

Lemma draw_all_app es : forall p, draw_all es p = (p ++ es)%list.
Proof.
  unfold draw_all; induction es as [|e es IH]; intros p; cbn.
  - now rewrite app_nil_r.
  - rewrite IH, <- app_assoc; reflexivity.
Qed.

Lemma select_rows_map (f : Celda -> bool) rs :
  select_rows rs (map f (map Tipo rs)) = filter (fun r => f (Tipo r)) rs.
Proof.
  induction rs as [|r rs IH]; cbn; [reflexivity|].
  rewrite IH; reflexivity.
Qed.

Lemma set_Tipo_map (f : Celda -> Celda) rs :
  set_Tipo rs (map f (map Tipo rs)) =
  map (fun r => mkRecord (Fecha r) (ACTIVA r) (f (Tipo r))) rs.
Proof.
  induction rs as [|r rs IH]; cbn; [reflexivity|].
  rewrite IH; reflexivity.
Qed.

(** ** The check of the string accessor *)

Lemma existsb_Permutation {A} (f : A -> bool) l l' :
  Permutation l l' -> existsb f l = existsb f l'.
Proof.
  induction 1 as [|x l l' Hp IH|x y l|l l' l'' H1 IH1 H2 IH2]; cbn.
  - reflexivity.
  - now rewrite IH.
  - destruct (f x), (f y); reflexivity.
  - congruence.
Qed.

Lemma admite_str_Permutation l l' :
  Permutation l l' -> admite_str l = admite_str l'.
Proof.
  intros Hp. destruct l as [|a l], l' as [|b l'].
  - reflexivity.
  - apply Permutation_nil in Hp. discriminate.
  - symmetry in Hp. apply Permutation_nil in Hp. discriminate.
  - apply existsb_Permutation, Hp.
Qed.

Lemma Tipo_es_texto_cargado file :
  Tipo_es_texto (cargado file) = Tipo_es_texto file.
Proof.
  unfold Tipo_es_texto, cargado. cbn [rows].
  apply admite_str_Permutation, Permutation_map.
  symmetry. apply FechaSort.Permuted_sort.
Qed.

(** In a column that fails the check no cell is a text. *)
Lemma sin_texto l c :
  admite_str l = false -> In c l -> es_texto c = false.
Proof.
  intros Hl Hc. destruct l as [|a l]; [contradiction|].
  unfold admite_str in Hl.
  destruct (es_texto c) eqn:Ec; [|reflexivity].
  assert (Hex : existsb es_texto (a :: l) = true)
    by (apply existsb_exists; now exists c).
  congruence.
Qed.

(** ** What each block does *)

Lemma cargar_datos_ok file g :
  has_column "Fecha" file = true ->
  cargar_datos file g = (inr tt, set_df (cargado file) g).
Proof.
  intros Hf. unfold cargar_datos, bind, pd_read_csv, sort_values_Fecha, read, assign, ret.
  cbn [forallb]. rewrite Hf. cbn [andb].
  change (has_column "Fecha" (df (set_df file g))) with (has_column "Fecha" file).
  rewrite Hf. reflexivity.
Qed.

Lemma cargar_datos_missing file g :
  has_column "Fecha" file = false ->
  cargar_datos file g = (inl ValueError, g).
Proof.
  intros Hf. unfold cargar_datos, bind, pd_read_csv.
  cbn [forallb]. rewrite Hf. reflexivity.
Qed.

Lemma parametros_ok ui g : parametros ui g = (inr tt, con_parametros ui g).
Proof.
  unfold con_parametros. rewrite <- draw_all_app.
  destruct ui as [h pr c a b c' k co cp]; destruct c; reflexivity.
Qed.

Lemma filtrar_datos_predichos_ok g :
  has_column "Tipo" (df g) = true ->
  filtrar_datos_predichos g =
    (inr tt, set_df_sim (head (dias g) (predichos (df g)))
               (set_df_predicha (predichos (df g)) g)).
Proof.
  intros Ht. unfold filtrar_datos_predichos, bind, read, getitem_Tipo, assign, ret.
  rewrite Ht. unfold copy, getitem_mask. rewrite select_rows_map. reflexivity.
Qed.

Lemma filtrar_datos_predichos_missing g :
  has_column "Tipo" (df g) = false ->
  filtrar_datos_predichos g = (inl KeyError, g).
Proof.
  intros Ht. unfold filtrar_datos_predichos, bind, read, getitem_Tipo, raise.
  rewrite Ht. reflexivity.
Qed.

Lemma titulo_y_explicacion_ok g :
  titulo_y_explicacion g = (inr tt, set_page (page g ++ titulo) g).
Proof. rewrite <- draw_all_app. reflexivity. Qed.

Lemma asegurar_formato_ok g :
  has_column "Tipo" (df g) = true ->
  has_column "Fecha" (df g) = true ->
  Tipo_es_texto (df g) = true ->
  asegurar_formato g = (inr tt, set_df (normalizado (df g)) g).
Proof.
  intros Ht Hf Hx. unfold Tipo_es_texto in Hx.
  unfold asegurar_formato, bind, read, getitem_Tipo, str_accessor, assign, ret.
  rewrite Ht, Hx. unfold sort_values_Fecha, str_capitalize.
  change (has_column "Fecha"
            (df (set_df (setitem_Tipo (df g) (map capitalizar (map Tipo (rows (df g))))) g)))
    with (has_column "Fecha"
            (setitem_Tipo (df g) (map capitalizar (map Tipo (rows (df g)))))).
  unfold setitem_Tipo at 1. rewrite Ht.
  change (has_column "Fecha" {| columns := columns (df g); rows := ?r |})
    with (has_column "Fecha" (df g)).
  rewrite Hf. unfold ret, normalizado.
  change (df (set_df ?d g)) with d. unfold setitem_Tipo. rewrite Ht.
  cbn [columns rows]. rewrite set_Tipo_map. reflexivity.
Qed.

Lemma asegurar_formato_sin_texto g :
  has_column "Tipo" (df g) = true ->
  Tipo_es_texto (df g) = false ->
  asegurar_formato g = (inl AttributeError, g).
Proof.
  intros Ht Hx. unfold Tipo_es_texto in Hx.
  unfold asegurar_formato, bind, read, getitem_Tipo, str_accessor, raise, ret.
  rewrite Ht, Hx. reflexivity.
Qed.

Lemma detectar_inicio_ok g :
  has_column "Tipo" (df g) = true ->
  has_column "Fecha" (df g) = true ->
  detectar_inicio g = (inr tt, set_inicio_pred (inicio_de (df g)) g).
Proof.
  intros Ht Hf. unfold detectar_inicio, bind, read, getitem_Tipo, ret.
  rewrite Ht. unfold inicio_de.
  destruct (existsb (eq_str "Predicha") (map Tipo (rows (df g)))); [|reflexivity].
  unfold getitem_Fecha, getitem_mask.
  change (has_column "Fecha" {| columns := columns (df g); rows := ?r |})
    with (has_column "Fecha" (df g)).
  rewrite Hf. cbn [rows]. rewrite select_rows_map. reflexivity.
Qed.

Lemma grafica_de_linea_ok g :
  has_column "Fecha" (df g) = true ->
  has_column "ACTIVA" (df g) = true ->
  has_column "Tipo" (df g) = true ->
  grafica_de_linea g =
    (inr tt, set_page (page g ++ [PlotlyChart (grafica (df g))])
               (set_fig (Some (grafica (df g))) g)).
Proof.
  intros Hf Ha Ht. unfold grafica_de_linea, bind, read, px_line.
  rewrite Hf, Ha, Ht. reflexivity.
Qed.

Lemma grafica_de_linea_missing g :
  has_column "ACTIVA" (df g) = false ->
  grafica_de_linea g = (inl ValueError, g).
Proof.
  intros Ha. unfold grafica_de_linea, bind, read, px_line.
  rewrite Ha, andb_false_r. reflexivity.
Qed.

Lemma calcular_beneficios_nonzero g capacidad_kw label :
  (kwh_por_litro g =? 0)%float = false ->
  calcular_beneficios capacidad_kw label g = (inr tt, con_beneficio g capacidad_kw label).
Proof.
  intros Hk. unfold calcular_beneficios, bind, read, truediv.
  rewrite Hk. unfold con_beneficio. rewrite <- draw_all_app. reflexivity.
Qed.

Lemma calcular_beneficios_zero g capacidad_kw label :
  (kwh_por_litro g =? 0)%float = true ->
  calcular_beneficios capacidad_kw label g = (inl ZeroDivisionError, g).
Proof.
  intros Hk. unfold calcular_beneficios, bind, read, truediv.
  rewrite Hk. reflexivity.
Qed.

(** ** The run up to the benefits section *)

Lemma run_sin_Fecha file ui :
  has_column "Fecha" file = false ->
  run file ui = (inl ValueError, start).
Proof.
  intros Hf. unfold run, script.
  apply bind_err, cargar_datos_missing, Hf.
Qed.

Lemma run_sin_Tipo file ui :
  has_column "Fecha" file = true ->
  has_column "Tipo" file = false ->
  run file ui = (inl KeyError, tras_parametros file ui).
Proof.
  intros Hf Ht. unfold run, script.
  erewrite bind_ok by (apply cargar_datos_ok, Hf).
  erewrite bind_ok by apply parametros_ok.
  apply bind_err, filtrar_datos_predichos_missing, Ht.
Qed.

Lemma run_sin_texto file ui :
  has_column "Fecha" file = true ->
  has_column "Tipo" file = true ->
  Tipo_es_texto file = false ->
  run file ui = (inl AttributeError, tras_titulo file ui).
Proof.
  intros Hf Ht Hx. unfold run, script.
  erewrite bind_ok by (apply cargar_datos_ok, Hf).
  erewrite bind_ok by apply parametros_ok.
  erewrite bind_ok by (apply filtrar_datos_predichos_ok, Ht).
  erewrite bind_ok by apply titulo_y_explicacion_ok.
  apply bind_err, asegurar_formato_sin_texto; [exact Ht|].
  rewrite <- Hx. apply Tipo_es_texto_cargado.
Qed.

Lemma run_hasta_deteccion file ui (k : M unit) :
  has_column "Fecha" file = true ->
  has_column "Tipo" file = true ->
  Tipo_es_texto file = true ->
  (cargar_datos file ;; parametros ui ;; filtrar_datos_predichos ;;
   titulo_y_explicacion ;; asegurar_formato ;; detectar_inicio ;; k) start
  = k (tras_deteccion file ui).
Proof.
  intros Hf Ht Hx.
  erewrite bind_ok by (apply cargar_datos_ok, Hf).
  erewrite bind_ok by apply parametros_ok.
  erewrite bind_ok by (apply filtrar_datos_predichos_ok, Ht).
  erewrite bind_ok by apply titulo_y_explicacion_ok.
  erewrite bind_ok
    by (apply asegurar_formato_ok;
        [exact Ht|exact Hf|rewrite <- Hx; apply Tipo_es_texto_cargado]).
  erewrite bind_ok by (apply detectar_inicio_ok; [exact Ht|exact Hf]).
  reflexivity.
Qed.

Lemma run_sin_ACTIVA file ui :
  has_column "Fecha" file = true ->
  has_column "Tipo" file = true ->
  Tipo_es_texto file = true ->
  has_column "ACTIVA" file = false ->
  run file ui = (inl ValueError, tras_deteccion file ui).
Proof.
  intros Hf Ht Hx Ha. unfold run, script.
  rewrite run_hasta_deteccion by assumption.
  apply bind_err, grafica_de_linea_missing, Ha.
Qed.

Lemma llega_a_beneficios_inv file :
  llega_a_beneficios file = true ->
  has_column "Fecha" file = true /\ has_column "ACTIVA" file = true /\
  has_column "Tipo" file = true /\ Tipo_es_texto file = true.
Proof.
  unfold llega_a_beneficios, tiene_columnas. rewrite !andb_true_iff. tauto.
Qed.

Lemma run_con_columnas file ui :
  llega_a_beneficios file = true ->
  run file ui = desde_beneficios (tras_grafica file ui).
Proof.
  intros Hc. apply llega_a_beneficios_inv in Hc. destruct Hc as (Hf & Ha & Ht & Hx).
  unfold run, script.
  rewrite run_hasta_deteccion by assumption.
  erewrite bind_ok by (apply grafica_de_linea_ok; [exact Hf|exact Ha|exact Ht]).
  unfold desde_beneficios, tras_grafica. cbv zeta beta. reflexivity.
Qed.

(** The five ways a run goes, by the file. *)
Lemma run_casos file ui :
  (has_column "Fecha" file = false /\ run file ui = (inl ValueError, start)) \/
  (has_column "Fecha" file = true /\ has_column "Tipo" file = false /\
   run file ui = (inl KeyError, tras_parametros file ui)) \/
  (has_column "Fecha" file = true /\ has_column "Tipo" file = true /\
   Tipo_es_texto file = false /\
   run file ui = (inl AttributeError, tras_titulo file ui)) \/
  (has_column "Fecha" file = true /\ has_column "Tipo" file = true /\
   Tipo_es_texto file = true /\ has_column "ACTIVA" file = false /\
   run file ui = (inl ValueError, tras_deteccion file ui)) \/
  (llega_a_beneficios file = true /\
   run file ui = desde_beneficios (tras_grafica file ui)).
Proof.
  destruct (has_column "Fecha" file) eqn:Hf;
    [|left; split; [reflexivity|now apply run_sin_Fecha]].
  destruct (has_column "Tipo" file) eqn:Ht;
    [|right; left; repeat split; now apply run_sin_Tipo].
  destruct (Tipo_es_texto file) eqn:Hx;
    [|right; right; left; repeat split; now apply run_sin_texto].
  destruct (has_column "ACTIVA" file) eqn:Ha;
    [|right; right; right; left; repeat split; now apply run_sin_ACTIVA].
  right; right; right; right.
  assert (Hc : llega_a_beneficios file = true)
    by (unfold llega_a_beneficios, tiene_columnas; now rewrite Hf, Ha, Ht, Hx).
  split; [exact Hc|now apply run_con_columnas].
Qed.

(** ** Statements that leave a global alone *)

Section Preserves.
Context {X : Type} (x : Globals -> X).

Lemma preserves_ret {A} (a : A) : preserves x (ret a).
Proof. intros g; reflexivity. Qed.

Lemma preserves_raise {A} e : preserves x (@raise A e).
Proof. intros g; reflexivity. Qed.

Lemma preserves_read {A} (y : Globals -> A) : preserves x (read y).
Proof. intros g; reflexivity. Qed.

Lemma preserves_assign upd :
  (forall g, x (upd g) = x g) -> preserves x (assign upd).
Proof. intros Hu g; apply Hu. Qed.

Lemma preserves_bind {A B} (m : M A) (k : A -> M B) :
  preserves x m -> (forall a, preserves x (k a)) -> preserves x (bind m k).
Proof.
  intros Hm Hk g. unfold bind. specialize (Hm g).
  destruct (m g) as [[e|a] g']; cbn in *; [exact Hm|].
  rewrite Hk; exact Hm.
Qed.

Lemma preserves_of_option {A} e (o : option A) : preserves x (of_option e o).
Proof. destruct o; intros g; reflexivity. Qed.

Lemma preserves_for_each {A} (xs : list A) (body : A -> M unit) :
  (forall a, preserves x (body a)) -> preserves x (for_each xs body).
Proof.
  intros Hb; induction xs as [|a xs IH]; cbn.
  - apply preserves_ret.
  - apply preserves_bind; [apply Hb|intros _; exact IH].
Qed.

End Preserves.

Ltac preserva :=
  repeat first
    [ apply preserves_ret
    | apply preserves_raise
    | apply preserves_read
    | apply preserves_of_option
    | apply preserves_assign; intros; reflexivity
    | apply preserves_bind; [|intros]
    | apply preserves_for_each; intros
    | match goal with
      | |- preserves _ (if ?c then _ else _) => destruct c
      | |- preserves _ (let (_, _) := ?p in _) => destruct p
      | |- preserves _ (match ?rs with [] => _ | _ :: _ => _ end) => destruct rs
      end
    | progress cbv beta
    | progress unfold draw, truediv, px_line, getitem_Tipo, getitem_Fecha,
        sort_values_Fecha, pd_read_csv, st_sidebar_slider, st_sidebar_selectbox,
        st_sidebar_checkbox, st_sidebar_number_input ].

Lemma calcular_beneficios_preserves {X} (x : Globals -> X) capacidad_kw label :
  (forall v g, x (set_resultados v g) = x g) ->
  (forall v g, x (set_page v g) = x g) ->
  preserves x (calcular_beneficios capacidad_kw label).
Proof.
  intros Hr Hp. unfold calcular_beneficios.
  repeat first
    [ apply preserves_read
    | apply preserves_bind; [|intros]
    | apply preserves_assign; intros; first [apply Hr | apply Hp]
    | match goal with |- preserves _ (if ?c then _ else _) => destruct c end
    | apply preserves_ret | apply preserves_raise
    | progress unfold draw, truediv ].
Qed.

Lemma desde_beneficios_preserves_df : preserves df desde_beneficios.
Proof. unfold desde_beneficios, beneficios_por_escenario, comparativa, nota_final, calcular_beneficios. preserva. Qed.

Lemma desde_beneficios_preserves_dias : preserves dias desde_beneficios.
Proof. unfold desde_beneficios, beneficios_por_escenario, comparativa, nota_final, calcular_beneficios. preserva. Qed.

Lemma desde_beneficios_preserves_df_sim : preserves df_sim desde_beneficios.
Proof. unfold desde_beneficios, beneficios_por_escenario, comparativa, nota_final, calcular_beneficios. preserva. Qed.

(** ** Statements only add to the page *)

Lemma page_grows_ret {A} (a : A) : page_grows (ret a).
Proof. intros g; exists []; cbn; now rewrite app_nil_r. Qed.

Lemma page_grows_raise {A} e : page_grows (@raise A e).
Proof. intros g; exists []; cbn; now rewrite app_nil_r. Qed.

Lemma page_grows_read {A} (y : Globals -> A) : page_grows (read y).
Proof. intros g; exists []; cbn; now rewrite app_nil_r. Qed.

Lemma page_grows_of_option {A} e (o : option A) : page_grows (of_option e o).
Proof. destruct o; [apply page_grows_ret|apply page_grows_raise]. Qed.

Lemma page_grows_draw e : page_grows (draw e).
Proof. intros g; exists [e]; reflexivity. Qed.

Lemma page_grows_assign upd :
  (forall g, page (upd g) = page g) -> page_grows (assign upd).
Proof. intros Hu g; exists []; cbn; now rewrite app_nil_r, Hu. Qed.

Lemma page_grows_bind {A B} (m : M A) (k : A -> M B) :
  page_grows m -> (forall a, page_grows (k a)) -> page_grows (bind m k).
Proof.
  intros Hm Hk g. unfold bind. destruct (Hm g) as [es Hes].
  destruct (m g) as [[e|a] g']; cbn in *; [now exists es|].
  destruct (Hk a g') as [es' Hes']. exists (es ++ es')%list.
  now rewrite Hes', Hes, app_assoc.
Qed.

Lemma page_grows_for_each {A} (xs : list A) (body : A -> M unit) :
  (forall a, page_grows (body a)) -> page_grows (for_each xs body).
Proof.
  intros Hb; induction xs as [|a xs IH]; cbn.
  - apply page_grows_ret.
  - apply page_grows_bind; [apply Hb|intros _; exact IH].
Qed.

Ltac crece :=
  repeat first
    [ apply page_grows_ret
    | apply page_grows_raise
    | apply page_grows_read
    | apply page_grows_of_option
    | apply page_grows_draw
    | apply page_grows_assign; intros; reflexivity
    | apply page_grows_bind; [|intros]
    | apply page_grows_for_each; intros
    | match goal with
      | |- page_grows (if ?c then _ else _) => destruct c
      | |- page_grows (let (_, _) := ?p in _) => destruct p
      | |- page_grows (match ?rs with [] => _ | _ :: _ => _ end) => destruct rs
      end
    | progress cbv beta
    | progress unfold truediv ].

Lemma calcular_beneficios_page_grows capacidad_kw label :
  page_grows (calcular_beneficios capacidad_kw label).
Proof. unfold calcular_beneficios. crece. Qed.

Lemma comparativa_nota_page_grows : page_grows (comparativa ;; nota_final).
Proof. unfold comparativa, nota_final. crece. Qed.

(** ** Statements that depend on the parameters alone *)

Lemma solo_ret {A} (a : A) : solo_parametros (ret a).
Proof. intros g1 g2 Hg; split; [reflexivity|exact Hg]. Qed.

Lemma solo_raise {A} e : solo_parametros (@raise A e).
Proof. intros g1 g2 Hg; split; [reflexivity|exact Hg]. Qed.

Lemma solo_read {A} (y : Globals -> A) :
  (forall g1 g2, mismos_beneficios g1 g2 -> y g1 = y g2) ->
  solo_parametros (read y).
Proof. intros Hy g1 g2 Hg; split; [cbn; f_equal; auto|exact Hg]. Qed.

Lemma solo_assign upd :
  (forall g1 g2, mismos_beneficios g1 g2 -> mismos_beneficios (upd g1) (upd g2)) ->
  solo_parametros (assign upd).
Proof. intros Hu g1 g2 Hg; split; [reflexivity|cbn; auto]. Qed.

Lemma solo_bind {A B} (m : M A) (k : A -> M B) :
  solo_parametros m -> (forall a, solo_parametros (k a)) ->
  solo_parametros (bind m k).
Proof.
  intros Hm Hk g1 g2 Hg. unfold bind. destruct (Hm g1 g2 Hg) as [Hf Hs].
  destruct (m g1) as [[e1|a1] g1'], (m g2) as [[e2|a2] g2']; cbn in *;
    try discriminate.
  - split; [congruence|exact Hs].
  - injection Hf as ->. apply Hk, Hs.
Qed.

Lemma solo_for_each {A} (xs : list A) (body : A -> M unit) :
  (forall a, solo_parametros (body a)) -> solo_parametros (for_each xs body).
Proof.
  intros Hb; induction xs as [|a xs IH]; cbn.
  - apply solo_ret.
  - apply solo_bind; [apply Hb|intros _; exact IH].
Qed.

Lemma solo_draw e : solo_parametros (draw e).
Proof.
  apply solo_assign. intros g1 g2 [Hp Hr]; split; [exact Hp|exact Hr].
Qed.

Lemma calcular_beneficios_solo_parametros capacidad_kw label :
  solo_parametros (calcular_beneficios capacidad_kw label).
Proof.
  unfold calcular_beneficios.
  apply solo_bind; [apply solo_read; intros ? ? [Hp _]; apply Hp|intros h].
  apply solo_bind; [apply solo_read; intros ? ? [Hp _]; apply Hp|intros pr].
  apply solo_bind; [apply solo_read; intros ? ? [Hp _]; apply Hp|intros n].
  apply solo_bind; [apply solo_read; intros ? ? [Hp _]; apply Hp|intros k].
  apply solo_bind;
    [unfold truediv; destruct (_ =? _)%float; [apply solo_raise|apply solo_ret]
    |intros d].
  apply solo_bind; [apply solo_read; intros ? ? [Hp _]; apply Hp|intros c].
  apply solo_bind; [apply solo_read; intros ? ? [Hp _]; apply Hp|intros p].
  apply solo_bind.
  { apply solo_assign. intros g1 g2 [Hp Hr]; split; [exact Hp|].
    cbn. now rewrite Hr. }
  intros _. repeat (apply solo_bind; [apply solo_draw|intros _]).
  apply solo_draw.
Qed.

Lemma beneficios_por_escenario_unfold g :
  beneficios_por_escenario g =
  for_each (escenarios g) por_escenario (inicio_beneficios g).
Proof. unfold inicio_beneficios. rewrite <- draw_all_app. reflexivity. Qed.

Lemma desde_beneficios_unfold g :
  desde_beneficios g =
  (for_each (escenarios g) por_escenario ;; comparativa ;; nota_final)
    (inicio_beneficios g).
Proof.
  unfold desde_beneficios. unfold bind at 1 3.
  rewrite beneficios_por_escenario_unfold. reflexivity.
Qed.

Lemma por_escenario_solo_parametros e : solo_parametros (por_escenario e).
Proof.
  destruct e as [nombre [|]]; [|apply solo_ret].
  apply solo_bind; [apply solo_draw|intros _].
  apply calcular_beneficios_solo_parametros.
Qed.

Lemma comparativa_nota_solo_parametros : solo_parametros (comparativa ;; nota_final).
Proof.
  apply solo_bind; [|intros _; apply solo_draw].
  unfold comparativa.
  apply solo_bind; [apply solo_read; intros ? ? [_ Hr]; exact Hr|intros rs].
  destruct rs; [apply solo_ret|].
  apply solo_bind; [apply solo_draw|intros _; apply solo_draw].
Qed.

Lemma desde_beneficios_solo_parametros g1 g2 :
  mismos_parametros g1 g2 ->
  fst (desde_beneficios g1) = fst (desde_beneficios g2) /\
  mismos_beneficios (snd (desde_beneficios g1)) (snd (desde_beneficios g2)).
Proof.
  intros Hp. rewrite !desde_beneficios_unfold.
  pose proof Hp as (_ & _ & _ & He & _). rewrite He.
  apply solo_bind.
  - apply solo_for_each, por_escenario_solo_parametros.
  - intros _. apply comparativa_nota_solo_parametros.
  - split; [exact Hp|reflexivity].
Qed.

(** ** The benefits section *)

Lemma filter_snoc {A} (f : A -> bool) l a :
  f a = false -> filter f (l ++ [a]) = filter f l.
Proof. intros Ha. rewrite filter_app; cbn. rewrite Ha. apply app_nil_r. Qed.

Lemma existsb_tres ui : existsb snd (tres_escenarios ui) = algun_escenario ui.
Proof.
  unfold tres_escenarios, algun_escenario. cbn [existsb snd].
  now rewrite orb_false_r, orb_assoc.
Qed.

(** With a zero constant the first active tier raises, and nothing was
    recorded or shown as a metric by then. *)
Lemma for_each_zero es : forall g,
  (kwh_por_litro g =? 0)%float = true ->
  existsb snd es = true ->
  exists g', for_each es por_escenario g = (inl ZeroDivisionError, g') /\
             resultados g' = resultados g /\
             filter es_metrica (page g') = filter es_metrica (page g).
Proof.
  induction es as [|[nombre activo] es IH]; intros g Hk Hex; [discriminate|].
  cbn [for_each]. destruct activo.
  - exists (set_page (page g ++ [Expander ("🔋 Resultados para " ++ nombre)]) g).
    split; [|split; [reflexivity|apply filter_snoc; reflexivity]].
    apply bind_err. unfold por_escenario.
    erewrite bind_ok by reflexivity.
    apply calcular_beneficios_zero, Hk.
  - cbn in Hex. destruct (IH g Hk Hex) as (g' & Hrun & Hr & Hp).
    exists g'. split; [|split; assumption].
    erewrite bind_ok by reflexivity. exact Hrun.
Qed.

Lemma for_each_zero_first es : forall g,
  (kwh_por_litro g =? 0)%float = true ->
  existsb snd es = true ->
  for_each es por_escenario g =
    (inl ZeroDivisionError,
     set_page (page g ++ [Expander ("🔋 Resultados para " ++ hd "" (activos es))]) g).
Proof.
  induction es as [|[nombre activo] es IH]; intros g Hk Hex; [discriminate|].
  cbn [for_each]. destruct activo.
  - apply bind_err. unfold por_escenario.
    erewrite bind_ok by reflexivity.
    apply calcular_beneficios_zero, Hk.
  - cbn in Hex. erewrite bind_ok by reflexivity. apply IH; assumption.
Qed.

(** Without a zero constant, or without a checked tier, the loop goes
    through: one expander, four metrics and one result per checked tier. *)
Lemma for_each_sin_error es : forall g,
  (kwh_por_litro g =? 0)%float = false \/ existsb snd es = false ->
  for_each es por_escenario g =
    (inr tt,
     set_page (page g ++ flat_map (tarjeta g) (activos es))
       (set_resultados (resultados g ++ map (beneficio_de g) (activos es)) g)).
Proof.
  induction es as [|[nombre activo] es IH]; intros g Hd.
  - cbn. unfold set_page, set_resultados. cbn. rewrite !app_nil_r.
    destruct g; reflexivity.
  - cbn [for_each]. destruct activo.
    + assert (Hk : (kwh_por_litro g =? 0)%float = false)
        by (destruct Hd as [Hk|Hex]; [exact Hk|discriminate Hex]).
      unfold por_escenario.
      erewrite bind_ok by
        (erewrite bind_ok by reflexivity;
         apply calcular_beneficios_nonzero; exact Hk).
      rewrite IH by (left; exact Hk).
      unfold activos, set_page, set_resultados, con_beneficio,
        tarjeta, beneficio_de, beneficio.
      cbn [filter snd map fst flat_map page resultados set_page set_resultados
           df H PR horizonte dias escenarios kwh_por_litro co2_por_litro
           cop_diesel df_predicha df_sim inicio_pred fig].
      f_equal. f_equal.
      * rewrite <- !app_assoc. reflexivity.
      * rewrite <- !app_assoc. reflexivity.
    + erewrite bind_ok by reflexivity.
      rewrite IH by (destruct Hd as [Hk|Hex]; [left; exact Hk|right; exact Hex]).
      reflexivity.
Qed.

Lemma comparativa_nota_ok g :
  (comparativa ;; nota_final) g =
    (inr tt, set_page (page g ++ barras (resultados g) ++ [nota]) g).
Proof.
  unfold comparativa, bind, read. destruct (resultados g) as [|r rs] eqn:Er.
  - reflexivity.
  - cbn [ret]. unfold barras.
    rewrite <- (draw_all_app
                  [Subheader "📊 Comparativa de Beneficios por Escenario";
                   PlotlyChart (BarFigure (r :: rs)); nota]).
    reflexivity.
Qed.

Lemma loop_ui file ui :
  map (beneficio_de (inicio_beneficios (tras_grafica file ui)))
      (activos (tres_escenarios ui)) = resultados_ui ui /\
  flat_map (tarjeta (inicio_beneficios (tras_grafica file ui)))
           (activos (tres_escenarios ui)) = flat_map tarjeta_ui (resultados_ui ui).
Proof.
  unfold resultados_ui, tres_escenarios, activos.
  destruct (check_pequena ui), (check_mediana ui), (check_grande ui);
    split; reflexivity.
Qed.

Lemma estado_final g F R :
  let g1 := set_page (page (inicio_beneficios g) ++ F)
              (set_resultados (resultados (inicio_beneficios g) ++ R)
                 (inicio_beneficios g)) in
  set_page (page g1 ++ barras (resultados g1) ++ [nota]) g1 =
  set_page (page g ++ ([Subheader "🌞 Beneficios por Escenario Solar";
                        leyenda_beneficios (dias g)] ++ F) ++
            barras R ++ [nota])
    (set_resultados R g).
Proof.
  intros g1. subst g1. unfold inicio_beneficios, set_page, set_resultados.
  cbn [page resultados df H PR horizonte dias escenarios kwh_por_litro
       co2_por_litro cop_diesel df_predicha df_sim inicio_pred fig].
  change (([] : list Resultado) ++ R)%list with R.
  rewrite <- !app_assoc. reflexivity.
Qed.

(** A run that reaches the benefits section and meets no zero division
    completes; this is its final state. *)
Lemma run_ok file ui :
  llega_a_beneficios file = true ->
  (input_kwh ui =? 0)%float = false \/ algun_escenario ui = false ->
  run file ui =
    (inr tt,
     set_page (page (tras_grafica file ui) ++ seccion_beneficios ui ++
               barras (resultados_ui ui) ++ [nota])
       (set_resultados (resultados_ui ui) (tras_grafica file ui))).
Proof.
  intros Hc Hd. rewrite run_con_columnas by exact Hc.
  rewrite desde_beneficios_unfold.
  change (escenarios (tras_grafica file ui)) with (tres_escenarios ui).
  erewrite bind_ok
    by (apply for_each_sin_error; rewrite existsb_tres; exact Hd).
  rewrite comparativa_nota_ok.
  destruct (loop_ui file ui) as [-> ->].
  rewrite (estado_final (tras_grafica file ui)).
  reflexivity.
Qed.

(** A run that reaches the benefits section with a zero constant and a
    checked tier stops at the first checked tier. *)
Lemma run_error_cero file ui :
  llega_a_beneficios file = true ->
  (input_kwh ui =? 0)%float = true ->
  algun_escenario ui = true ->
  run file ui =
    (inl ZeroDivisionError,
     set_page (page (inicio_beneficios (tras_grafica file ui)) ++
               [Expander ("🔋 Resultados para " ++
                          hd "" (activos (tres_escenarios ui)))])
       (inicio_beneficios (tras_grafica file ui))).
Proof.
  intros Hc Hk Hact. rewrite run_con_columnas by exact Hc.
  rewrite desde_beneficios_unfold.
  change (escenarios (tras_grafica file ui)) with (tres_escenarios ui).
  apply bind_err, for_each_zero_first; [exact Hk|].
  rewrite existsb_tres. exact Hact.
Qed.

(** The runs that complete. *)
Lemma run_completo file ui :
  fst (run file ui) = inr tt ->
  llega_a_beneficios file = true /\
  ((input_kwh ui =? 0)%float = false \/ algun_escenario ui = false).
Proof.
  intros Hr.
  destruct (run_casos file ui)
    as [[_ Hc]|[(_ & _ & Hc)|[(_ & _ & _ & Hc)|[(_ & _ & _ & _ & Hc)|[Hl _]]]]];
    try (rewrite Hc in Hr; discriminate Hr).
  split; [exact Hl|].
  destruct (input_kwh ui =? 0)%float eqn:Hk; [|now left].
  destruct (algun_escenario ui) eqn:Hact; [|now right].
  rewrite run_error_cero in Hr by assumption. discriminate Hr.
Qed.

(** The result list of any run is empty or the one the sidebar gives. *)
Lemma run_resultados file ui :
  resultados (snd (run file ui)) = [] \/
  resultados (snd (run file ui)) = resultados_ui ui.
Proof.
  destruct (run_casos file ui)
    as [[_ Hc]|[(_ & _ & Hc)|[(_ & _ & _ & Hc)|[(_ & _ & _ & _ & Hc)|[Hl _]]]]];
    try (rewrite Hc; left; reflexivity).
  destruct (input_kwh ui =? 0)%float eqn:Hk.
  - destruct (algun_escenario ui) eqn:Hact.
    + rewrite run_error_cero by assumption. left. reflexivity.
    + rewrite run_ok by (try assumption; now right). right. reflexivity.
  - rewrite run_ok by (try assumption; now left). right. reflexivity.
Qed.

Lemma resultados_ui_por_nombre ui r1 r2 :
  In r1 (resultados_ui ui) -> In r2 (resultados_ui ui) ->
  Escenario r1 = Escenario r2 -> r1 = r2.
Proof.
  unfold resultados_ui.
  destruct (check_pequena ui), (check_mediana ui), (check_grande ui);
    cbn [app In]; intros H1 H2 He;
    repeat match goal with
           | H : _ \/ _ |- _ => destruct H as [H|H]
           | H : False |- _ => contradiction H
           end;
    subst r1 r2; first [reflexivity | discriminate He].
Qed.

(** ** The benefit calculation *)

(** C1.  Whenever the kWh-per-litre constant is positive, the benefit
    calculation succeeds and the result it records has exactly
    [energy_kwh = capacity_kw * H * PR * days],
    [diesel_liters = energy_kwh / kwh_per_liter],
    [co2_kg = diesel_liters * co2_per_liter] and
    [cost = diesel_liters * price_per_liter], each evaluated in binary64 as
    written; and for capacity 1000, H = 4.5, PR = 0.80, 30 days, 3.0 kWh
    per litre, 2.2 kg per litre and 2553.59 per litre the four numbers are
    exactly 108000, 36000, 79200 and 91929240. *)
Theorem calcular_beneficios_formulas :
  (forall g capacidad_kw label,
      (0 <? kwh_por_litro g)%float = true ->
      let r := beneficio g capacidad_kw label in
      calcular_beneficios capacidad_kw label g =
        (inr tt, set_page (page g ++ metrics label r)
                   (set_resultados (resultados g ++ [r]) g)) /\
      Energia_kWh r = (capacidad_kw * H g * PR g * float_of_int (dias g))%float /\
      Diesel_Ahorrado_L r = (Energia_kWh r / kwh_por_litro g)%float /\
      CO2_Evitado_kg r = (Diesel_Ahorrado_L r * co2_por_litro g)%float /\
      Ahorro_Economico_COP r = (Diesel_Ahorrado_L r * cop_diesel g)%float)
  /\ resultados (snd (calcular_beneficios 1000 "Mediana (1 MW)" escenario_e2e)) =
       [mkResultado "Mediana (1 MW)" 108000 36000 79200 91929240].
Proof.
  split.
  - intros g capacidad_kw label Hk r. split.
    + apply calcular_beneficios_nonzero, eqb_zero_of_pos, Hk.
    + repeat split.
  - vm_compute. reflexivity.
Qed.

Lemma calcular_beneficios_formulas_witness :
  calcular_beneficios 1000 "Mediana (1 MW)" escenario_e2e =
    (inr tt, con_beneficio escenario_e2e 1000 "Mediana (1 MW)").
Proof.
  exact (proj1 (proj1 calcular_beneficios_formulas escenario_e2e
                  1000%float "Mediana (1 MW)" eq_refl)).
Defined.

(** C2, as stated, fails: with the negative constant -3.0 kWh per litre
    the benefit calculation raises nothing; it records numeric results,
    -36000 litres among them. *)
Lemma calcular_beneficios_negative_kwh :
  (kwh_por_litro escenario_kwh_negativo <=? 0)%float = true /\
  fst (calcular_beneficios 1000 "Mediana (1 MW)" escenario_kwh_negativo) = inr tt /\
  resultados (snd (calcular_beneficios 1000 "Mediana (1 MW)" escenario_kwh_negativo)) =
    [mkResultado "Mediana (1 MW)" 108000 (-36000) (-79200) (-91929240)].
Proof. vm_compute. repeat split. Qed.

(** C2, amended.  A kWh-per-litre constant equal to zero makes the
    benefit calculation raise ZeroDivisionError before it records or
    draws anything, so it returns no infinity, NaN or number; the script
    does not catch it: a run with a zero constant and an active tier
    never completes, whatever the file, and ends with an empty result list
    and no metric on the page; when the file gets the run as far as the
    benefits section (the three columns, text labels), the exception it
    ends with is that ZeroDivisionError.  A negative constant is not
    checked: the calculation succeeds and records the formulas' values. *)
Theorem calcular_beneficios_zero_division :
  (forall g capacidad_kw label,
      (kwh_por_litro g =? 0)%float = true ->
      calcular_beneficios capacidad_kw label g = (inl ZeroDivisionError, g)) /\
  (forall file ui,
      (input_kwh ui =? 0)%float = true ->
      (check_pequena ui || check_mediana ui || check_grande ui)%bool = true ->
      (exists e, fst (run file ui) = inl e) /\
      (llega_a_beneficios file = true ->
       fst (run file ui) = inl ZeroDivisionError) /\
      resultados (snd (run file ui)) = [] /\
      filter es_metrica (page (snd (run file ui))) = []) /\
  (forall g capacidad_kw label,
      (kwh_por_litro g <? 0)%float = true ->
      calcular_beneficios capacidad_kw label g =
        (inr tt, con_beneficio g capacidad_kw label)).
Proof.
  split; [|split].
  - intros g capacidad_kw label Hk. apply calcular_beneficios_zero, Hk.
  - intros file ui Hk Hact.
    destruct (run_casos file ui)
      as [[Hf Hc]|[(Hf & Ht & Hc)|[(Hf & Ht & Hx & Hc)|[(Hf & Ht & Hx & Ha & Hc)|[Hl Hc]]]]].
    1-4: rewrite Hc; cbn [fst snd];
      (split; [eexists; reflexivity|]);
      (split; [|split; reflexivity]);
      intros Hl; apply llega_a_beneficios_inv in Hl;
      destruct Hl as (Hf' & Ha' & Ht' & Hx'); congruence.
    rewrite Hc, desde_beneficios_unfold.
    destruct (for_each_zero (tres_escenarios ui)
                (inicio_beneficios (tras_grafica file ui)))
      as (g' & Hrun & Hr & Hp).
    + exact Hk.
    + rewrite existsb_tres. exact Hact.
    + change (escenarios (tras_grafica file ui)) with (tres_escenarios ui).
      erewrite bind_err by exact Hrun. cbn [fst snd].
      split; [eexists; reflexivity|].
      split; [reflexivity|split].
      * rewrite Hr. reflexivity.
      * rewrite Hp. reflexivity.
  - intros g capacidad_kw label Hk.
    apply calcular_beneficios_nonzero, eqb_zero_of_neg, Hk.
Qed.

Lemma calcular_beneficios_zero_division_witness :
  calcular_beneficios 1000 "Mediana (1 MW)" escenario_kwh_cero =
    (inl ZeroDivisionError, escenario_kwh_cero) /\
  fst (run archivo_ejemplo barra_kwh_cero) = inl ZeroDivisionError /\
  calcular_beneficios 1000 "Mediana (1 MW)" escenario_kwh_negativo =
    (inr tt, con_beneficio escenario_kwh_negativo 1000 "Mediana (1 MW)").
Proof.
  destruct calcular_beneficios_zero_division as (Hz & Hs & Hn).
  split; [|split].
  - exact (Hz escenario_kwh_cero 1000%float "Mediana (1 MW)" eq_refl).
  - exact (proj1 (proj2 (Hs archivo_ejemplo barra_kwh_cero eq_refl eq_refl))
             eq_refl).
  - exact (Hn escenario_kwh_negativo 1000%float "Mediana (1 MW)" eq_refl).
Defined.

(** C5, as stated, fails: the calculation writes outside its result (it
    appends to the global list [resultados] and draws four metrics) and
    reads outside its arguments (the same arguments under another global
    [H] give other numbers). *)
Lemma calcular_beneficios_not_pure :
  resultados escenario_e2e = [] /\
  resultados (snd (calcular_beneficios 1000 "Mediana (1 MW)" escenario_e2e)) =
    [mkResultado "Mediana (1 MW)" 108000 36000 79200 91929240] /\
  List.length (page (snd (calcular_beneficios 1000 "Mediana (1 MW)" escenario_e2e))) = 4%nat /\
  resultados (snd (calcular_beneficios 1000 "Mediana (1 MW)" (set_H 1 escenario_e2e))) =
    [mkResultado "Mediana (1 MW)" 24000 8000 17600 20428720].
Proof. vm_compute. repeat split. Qed.

(** C5, amended.  The calculation is deterministic in its arguments and
    the globals it reads: H, PR, dias and the three fuel constants (two
    states that agree on them and on the result list give the same
    outcome and the same result list).  It returns nothing; it appends
    its result to the global list [resultados] and draws four metrics
    itself, and leaves every other global as it was; called twice on the
    same inputs it appends the same result twice. *)
Theorem calcular_beneficios_effects :
  forall capacidad_kw label,
    solo_parametros (calcular_beneficios capacidad_kw label) /\
    (forall g,
        let g' := snd (calcular_beneficios capacidad_kw label g) in
        df g' = df g /\ H g' = H g /\ PR g' = PR g /\
        horizonte g' = horizonte g /\ dias g' = dias g /\
        escenarios g' = escenarios g /\
        kwh_por_litro g' = kwh_por_litro g /\
        co2_por_litro g' = co2_por_litro g /\ cop_diesel g' = cop_diesel g /\
        df_predicha g' = df_predicha g /\ df_sim g' = df_sim g /\
        inicio_pred g' = inicio_pred g /\ fig g' = fig g) /\
    (forall g,
        (kwh_por_litro g =? 0)%float = false ->
        let r := beneficio g capacidad_kw label in
        let g' := snd (calcular_beneficios capacidad_kw label g) in
        fst (calcular_beneficios capacidad_kw label g) = inr tt /\
        resultados g' = (resultados g ++ [r])%list /\
        page g' = (page g ++ metrics label r)%list /\
        resultados (snd (calcular_beneficios capacidad_kw label g')) =
          (resultados g ++ [r; r])%list).
Proof.
  intros capacidad_kw label. split; [|split].
  - apply calcular_beneficios_solo_parametros.
  - intros g g'. subst g'.
    repeat split; apply calcular_beneficios_preserves; reflexivity.
  - intros g Hk r g'. subst g'.
    rewrite (calcular_beneficios_nonzero g _ _ Hk). cbn [fst snd].
    repeat split.
    rewrite calcular_beneficios_nonzero by exact Hk.
    cbn. rewrite <- app_assoc. reflexivity.
Qed.

Lemma calcular_beneficios_effects_witness :
  resultados (snd (calcular_beneficios 1000 "Mediana (1 MW)"
                     (snd (calcular_beneficios 1000 "Mediana (1 MW)" escenario_e2e)))) =
  (resultados escenario_e2e ++
   [beneficio escenario_e2e 1000 "Mediana (1 MW)";
    beneficio escenario_e2e 1000 "Mediana (1 MW)"])%list.
Proof.
  exact (proj2 (proj2 (proj2 (proj2 (proj2
           (calcular_beneficios_effects 1000%float "Mediana (1 MW)"))
           escenario_e2e eq_refl)))).
Defined.

(** ** The demand filter *)

Lemma StronglySorted_filter {A} (R : A -> A -> Prop) (f : A -> bool) l :
  StronglySorted R l -> StronglySorted R (filter f l).
Proof.
  induction 1 as [|a l Hs IH Hall]; cbn; [constructor|].
  destruct (f a); [|exact IH].
  constructor; [exact IH|].
  rewrite Forall_forall in *. intros b Hb. apply Hall.
  apply filter_In in Hb. tauto.
Qed.

Lemma StronglySorted_firstn {A} (R : A -> A -> Prop) n : forall l,
  StronglySorted R l -> StronglySorted R (firstn n l).
Proof.
  induction n as [|n IH]; intros l Hs; [constructor|].
  destruct l as [|a l]; [constructor|].
  apply StronglySorted_inv in Hs. destruct Hs as [Hs Hall].
  cbn. constructor; [apply IH, Hs|].
  rewrite Forall_forall in *. intros b Hb. apply Hall.
  revert Hb. clear. revert l. induction n as [|n IHn]; intros [|c l] Hb;
    cbn in *; try contradiction.
  destruct Hb as [->|Hb]; [now left|right; apply IHn, Hb].
Qed.

Lemma sort_por_fecha l : StronglySorted por_fecha (FechaSort.sort l).
Proof.
  assert (Hs : StronglySorted (fun a b => is_true (FechaOrder.leb a b))
                 (FechaSort.sort l)).
  { apply FechaSort.StronglySorted_sort.
    intros a b c Hab Hbc. unfold is_true, FechaOrder.leb in *.
    apply Z.leb_le in Hab, Hbc. apply Z.leb_le. lia. }
  induction Hs as [|a m Hs IH Hall]; constructor; [exact IH|].
  rewrite Forall_forall in *. intros b Hb.
  apply Z.leb_le. exact (Hall b Hb).
Qed.

Lemma Permutation_filter_sort (f : DemandRecord -> bool) l :
  Permutation (filter f (FechaSort.sort l)) (filter f l).
Proof.
  assert (Hp : Permutation (FechaSort.sort l) l)
    by (symmetry; apply FechaSort.Permuted_sort).
  induction Hp as [|a l1 l2 Hp IH|a b l1|l1 l2 l3 H1 IH1 H2 IH2]; cbn.
  - constructor.
  - destruct (f a); [constructor; exact IH|exact IH].
  - destruct (f a), (f b); try apply Permutation_refl. apply perm_swap.
  - eapply Permutation_trans; eassumption.
Qed.

Lemma run_df_sim file ui :
  has_column "Fecha" file = true ->
  has_column "Tipo" file = true ->
  df_sim (snd (run file ui)) = df_sim (tras_filtro file ui).
Proof.
  intros Hf Ht.
  destruct (run_casos file ui)
    as [[Hf' _]|[(_ & Ht' & _)|[(_ & _ & _ & Hc)|[(_ & _ & _ & _ & Hc)|[_ Hc]]]]];
    try congruence; rewrite Hc.
  - reflexivity.
  - reflexivity.
  - rewrite desde_beneficios_preserves_df_sim. reflexivity.
Qed.

(** C3.  For every file with the date and kind columns and every
    horizon of the select box, the filter block runs without raising and
    leaves in [df_sim] the first [min(horizon, available)] records labelled
    "predicha", in date order; when fewer are available than the horizon
    asks for, it leaves all of them (ten available under a horizon of 30
    give exactly ten), and the rest of the script keeps [df_sim]. *)
Theorem demand_filter_truncates :
  forall file ui,
    has_column "Fecha" file = true ->
    has_column "Tipo" file = true ->
    let disponibles := filter es_predicha (FechaSort.sort (rows file)) in
    let horizon := Z.to_nat (dias_de (select_horizonte ui)) in
    let sim := rows (df_sim (snd (run file ui))) in
    (cargar_datos file ;; parametros ui ;; filtrar_datos_predichos) start =
      (inr tt, tras_filtro file ui) /\
    sim = firstn (Nat.min horizon (List.length disponibles)) disponibles /\
    List.length sim = Nat.min horizon (List.length disponibles) /\
    StronglySorted por_fecha sim /\
    Permutation disponibles (filter es_predicha (rows file)) /\
    ((List.length disponibles <= horizon)%nat -> sim = disponibles) /\
    (List.length disponibles = 10%nat -> select_horizonte ui = Op30 ->
     List.length sim = 10%nat).
Proof.
  intros file ui Hf Ht disponibles horizon sim.
  assert (Hsim : sim = firstn horizon disponibles).
  { subst sim. rewrite run_df_sim by assumption.
    unfold tras_filtro, head. cbn [df_sim set_df_sim rows].
    change (dias (tras_parametros file ui)) with (dias_de (select_horizonte ui)).
    destruct (select_horizonte ui); reflexivity. }
  assert (Hlen : List.length sim = Nat.min horizon (List.length disponibles))
    by (rewrite Hsim; apply length_firstn).
  split; [|split; [|split; [|split; [|split; [|split]]]]].
  - erewrite bind_ok by (apply cargar_datos_ok, Hf).
    erewrite bind_ok by apply parametros_ok.
    apply filtrar_datos_predichos_ok, Ht.
  - rewrite Hsim. destruct (Nat.le_ge_cases horizon (List.length disponibles)).
    + now rewrite Nat.min_l.
    + rewrite Nat.min_r by assumption.
      now rewrite !firstn_all2 by lia.
  - exact Hlen.
  - rewrite Hsim. apply StronglySorted_firstn, StronglySorted_filter, sort_por_fecha.
  - apply Permutation_filter_sort.
  - intros Hle. rewrite Hsim. apply firstn_all2, Hle.
  - intros H10 H30. rewrite Hlen, H10. subst horizon. rewrite H30. reflexivity.
Qed.

Lemma demand_filter_truncates_witness :
  List.length (rows (df_sim (snd (run archivo_diez barra_por_defecto)))) = 10%nat.
Proof.
  exact (proj2 (proj2 (proj2 (proj2 (proj2 (proj2
           (demand_filter_truncates archivo_diez barra_por_defecto
              eq_refl eq_refl))))))
           eq_refl eq_refl).
Defined.

(** ** Benefits and demand records *)

(** C4.  Under the same sidebar values the computed results do not
    depend on the demand records.  Whatever two files hold, two results
    that their runs record for the same tier are equal; when both files
    get the run as far as the benefits section (the three columns, text
    labels), the two runs end the same way (return, or the same
    exception) with the same result list; and the benefit calculation
    gives the same results whatever the frames [df], [df_predicha] and
    [df_sim] hold. *)
Theorem beneficios_independent_of_records :
  forall file1 file2 ui,
    (forall r1 r2,
        In r1 (resultados (snd (run file1 ui))) ->
        In r2 (resultados (snd (run file2 ui))) ->
        Escenario r1 = Escenario r2 -> r1 = r2) /\
    (llega_a_beneficios file1 = true ->
     llega_a_beneficios file2 = true ->
     fst (run file1 ui) = fst (run file2 ui) /\
     resultados (snd (run file1 ui)) = resultados (snd (run file2 ui))) /\
    (forall g d1 d2 d3 capacidad_kw label,
        resultados (snd (calcular_beneficios capacidad_kw label
                           (set_df_sim d1 (set_df_predicha d2 (set_df d3 g))))) =
        resultados (snd (calcular_beneficios capacidad_kw label g))).
Proof.
  intros file1 file2 ui. split; [|split].
  - intros r1 r2 H1 H2 He.
    destruct (run_resultados file1 ui) as [E1|E1]; rewrite E1 in H1;
      [contradiction H1|].
    destruct (run_resultados file2 ui) as [E2|E2]; rewrite E2 in H2;
      [contradiction H2|].
    exact (resultados_ui_por_nombre ui r1 r2 H1 H2 He).
  - intros H1 H2.
    rewrite !run_con_columnas by assumption.
    destruct (desde_beneficios_solo_parametros
                (tras_grafica file1 ui) (tras_grafica file2 ui))
      as (Hfst & _ & Hres); [repeat split|].
    split; [exact Hfst|exact Hres].
  - intros g d1 d2 d3 capacidad_kw label.
    apply (calcular_beneficios_solo_parametros capacidad_kw label).
    repeat split.
Qed.

Lemma beneficios_independent_of_records_witness :
  resultados (snd (run archivo_ejemplo barra_por_defecto)) =
  resultados (snd (run archivo_diez barra_por_defecto)).
Proof.
  exact (proj2 (proj1 (proj2 (beneficios_independent_of_records archivo_ejemplo
                                archivo_diez barra_por_defecto))
                  eq_refl eq_refl)).
Defined.

(** C7: the code at the failing input.  Records labelled "Predicha" or
    "PREDICHA" are left out by the filter, which compares the raw label
    with "predicha" before the labels are capitalised, while the later
    detection of the first predicted date, after capitalisation, finds
    them. *)
Theorem filter_is_case_sensitive :
  rows (df_sim (snd (run archivo_mayusculas barra_por_defecto))) = [] /\
  inicio_pred (snd (run archivo_mayusculas barra_por_defecto)) = Some 2 /\
  map Tipo (rows (df (snd (run archivo_mayusculas barra_por_defecto)))) =
    [Texto "Historica"; Texto "Predicha"; Texto "Predicha"].
Proof. vm_compute. repeat split. Qed.

(** ** The loaded frame *)

(** C8, as stated, fails: after the run the records of [df] carry the
    labels "Historica" and "Predicha", not the labels "historica" and
    "predicha" that were loaded. *)
Lemma df_is_rewritten :
  map Tipo (rows (df (snd (cargar_datos archivo_ejemplo start)))) =
    [Texto "historica"; Texto "historica"; Texto "predicha"; Texto "predicha"] /\
  map Tipo (rows (df (snd (run archivo_ejemplo barra_por_defecto)))) =
    [Texto "Historica"; Texto "Historica"; Texto "Predicha"; Texto "Predicha"].
Proof. vm_compute. split; reflexivity. Qed.

Lemma map_normalizar_Fecha l : map Fecha (map normalizar l) = map Fecha l.
Proof. rewrite map_map. reflexivity. Qed.

Lemma map_normalizar_ACTIVA l : map ACTIVA (map normalizar l) = map ACTIVA l.
Proof. rewrite map_map. reflexivity. Qed.

Lemma run_df file ui :
  has_column "Fecha" file = true ->
  has_column "Tipo" file = true ->
  Tipo_es_texto file = true ->
  df (snd (run file ui)) = normalizado (cargado file).
Proof.
  intros Hf Ht Hx.
  destruct (run_casos file ui)
    as [[Hf' _]|[(_ & Ht' & _)|[(_ & _ & Hx' & _)|[(_ & _ & _ & _ & Hc)|[_ Hc]]]]];
    try congruence; rewrite Hc.
  - reflexivity.
  - rewrite desde_beneficios_preserves_df. reflexivity.
Qed.

(** C8, amended.  In a render cycle the loaded frame is changed by one
    block only, [asegurar_formato], which replaces every label by its
    capitalised form and sorts by date again: the frame keeps its columns,
    and its records are the loaded ones with the label capitalised, dates
    and values untouched.  (When the labels are not text, that block
    raises AttributeError at its first line and the frame stays exactly as
    loaded.)  Filtering, the captions, the detection of the first
    predicted date, the chart and the benefit computation leave the frame
    as it is. *)
Theorem df_changes_only_by_normalisation :
  forall file ui,
    has_column "Fecha" file = true ->
    has_column "Tipo" file = true ->
    let loaded := df (snd (cargar_datos file start)) in
    let final := df (snd (run file ui)) in
    columns final = columns loaded /\
    (Tipo_es_texto file = true ->
     rows final = FechaSort.sort (map normalizar (rows loaded)) /\
     Permutation (rows final) (map normalizar (rows loaded))) /\
    (Tipo_es_texto file = false ->
     fst (run file ui) = inl AttributeError /\ final = loaded) /\
    Permutation (map Fecha (rows final)) (map Fecha (rows loaded)) /\
    Permutation (map ACTIVA (rows final)) (map ACTIVA (rows loaded)) /\
    preserves df filtrar_datos_predichos /\
    preserves df titulo_y_explicacion /\
    preserves df detectar_inicio /\
    preserves df grafica_de_linea /\
    preserves df desde_beneficios.
Proof.
  intros file ui Hf Ht loaded final.
  assert (Hl : loaded = cargado file)
    by (subst loaded; now rewrite cargar_datos_ok).
  assert (Hfin : Tipo_es_texto file = true -> final = normalizado loaded)
    by (intros Hx; subst final; rewrite Hl; now apply run_df).
  assert (Hno : Tipo_es_texto file = false ->
                fst (run file ui) = inl AttributeError /\ final = loaded).
  { intros Hx. subst final. rewrite Hl, run_sin_texto by assumption.
    split; reflexivity. }
  assert (Hp : Tipo_es_texto file = true ->
               Permutation (rows final) (map normalizar (rows loaded))).
  { intros Hx. rewrite (Hfin Hx). symmetry. apply FechaSort.Permuted_sort. }
  split; [destruct (Tipo_es_texto file);
          [now rewrite Hfin|now rewrite (proj2 (Hno eq_refl))]|].
  split; [intros Hx; split; [now rewrite Hfin|now apply Hp]|].
  split; [exact Hno|].
  split; [destruct (Tipo_es_texto file);
          [rewrite <- (map_normalizar_Fecha (rows loaded));
           now apply Permutation_map, Hp
          |now rewrite (proj2 (Hno eq_refl))]|].
  split; [destruct (Tipo_es_texto file);
          [rewrite <- (map_normalizar_ACTIVA (rows loaded));
           now apply Permutation_map, Hp
          |now rewrite (proj2 (Hno eq_refl))]|].
  split; [unfold filtrar_datos_predichos; preserva|].
  split; [unfold titulo_y_explicacion; preserva|].
  split; [unfold detectar_inicio; preserva|].
  split; [unfold grafica_de_linea; preserva|].
  apply desde_beneficios_preserves_df.
Qed.

Lemma df_changes_only_by_normalisation_witness :
  rows (df (snd (run archivo_ejemplo barra_por_defecto))) =
  FechaSort.sort
    (map normalizar (rows (df (snd (cargar_datos archivo_ejemplo start))))).
Proof.
  exact (proj1 (proj1 (proj2 (df_changes_only_by_normalisation archivo_ejemplo
                                barra_por_defecto eq_refl eq_refl))
                  eq_refl)).
Defined.

(** ** Captions and aborted runs *)

Lemma por_escenario_page_grows e : page_grows (por_escenario e).
Proof.
  destruct e as [nombre [|]]; [|apply page_grows_ret].
  apply page_grows_bind; [apply page_grows_draw|intros _].
  apply calcular_beneficios_page_grows.
Qed.

Lemma desde_beneficios_page g :
  exists es,
    page (snd (desde_beneficios g)) =
    (page g ++ [Subheader "🌞 Beneficios por Escenario Solar";
                leyenda_beneficios (dias g)] ++ es)%list.
Proof.
  assert (Hg : page_grows (for_each (escenarios g) por_escenario ;;
                           comparativa ;; nota_final)).
  { apply page_grows_bind; [|intros _; apply comparativa_nota_page_grows].
    apply page_grows_for_each, por_escenario_page_grows. }
  destruct (Hg (inicio_beneficios g)) as [es Hes]. exists es.
  rewrite desde_beneficios_unfold, Hes. cbn [inicio_beneficios page set_resultados set_page].
  unfold inicio_beneficios. cbn [page set_resultados set_page].
  now rewrite <- app_assoc.
Qed.

Lemma leyenda_beneficios_fuera n :
  ~ In (leyenda_beneficios n) (barra_lateral ++ titulo).
Proof.
  unfold leyenda_beneficios, barra_lateral, titulo, leyenda_demanda.
  cbn [app In append]. intros Hin.
  repeat (destruct Hin as [Hin|Hin]; [discriminate Hin|]). exact Hin.
Qed.

(** C9.  Whatever horizon is selected, the caption under the demand
    overview is the fixed text that says 30 days, while the caption of the
    benefits section carries the number of days of the selected option
    (7, 15 or 30).  The overview caption is on the page of every run that
    gets past the filter (a file with the date and kind columns); the
    benefits caption is on the page exactly when the run reaches the
    benefits section (the file also has the value column and its labels
    are text), and no benefits caption of any horizon is there
    otherwise. *)
Theorem captions_of_the_two_sections :
  forall file ui,
    has_column "Fecha" file = true ->
    has_column "Tipo" file = true ->
    leyenda_demanda =
      Markdown "🗓️ Mostrando demanda energética para los próximos **30 días** predichos." /\
    In leyenda_demanda (page (snd (run file ui))) /\
    dias (snd (run file ui)) = dias_de (select_horizonte ui) /\
    (llega_a_beneficios file = true ->
     In (leyenda_beneficios (dias_de (select_horizonte ui)))
        (page (snd (run file ui)))) /\
    (llega_a_beneficios file = false ->
     forall n, ~ In (leyenda_beneficios n) (page (snd (run file ui)))) /\
    leyenda_beneficios (dias_de Op7) =
      Markdown "🧮 Cálculo acumulado de beneficios para un horizonte de **7 días**." /\
    leyenda_beneficios (dias_de Op15) =
      Markdown "🧮 Cálculo acumulado de beneficios para un horizonte de **15 días**." /\
    leyenda_beneficios (dias_de Op30) =
      Markdown "🧮 Cálculo acumulado de beneficios para un horizonte de **30 días**.".
Proof.
  intros file ui Hf Ht.
  split; [reflexivity|].
  assert (Hin : In leyenda_demanda (page (tras_titulo file ui))).
  { change (page (tras_titulo file ui))
      with (page (tras_filtro file ui) ++ titulo)%list.
    apply in_or_app. right. right. right. left. reflexivity. }
  assert (Hpag : page (tras_titulo file ui) = (barra_lateral ++ titulo)%list)
    by reflexivity.
  destruct (run_casos file ui)
    as [[Hf' _]|[(_ & Ht' & _)|[(_ & _ & Hx & Hc)|[(_ & _ & Hx & Ha & Hc)|[Hl Hc]]]]];
    try congruence.
  - rewrite Hc. cbn [snd].
    split; [exact Hin|split; [reflexivity|]].
    split; [|split; [|repeat split]].
    + intros Hl. apply llega_a_beneficios_inv in Hl.
      destruct Hl as (_ & _ & _ & Hx'). congruence.
    + intros _ n. rewrite Hpag. apply leyenda_beneficios_fuera.
  - rewrite Hc. cbn [snd].
    change (page (tras_deteccion file ui)) with (page (tras_titulo file ui)).
    split; [exact Hin|split; [reflexivity|]].
    split; [|split; [|repeat split]].
    + intros Hl. apply llega_a_beneficios_inv in Hl.
      destruct Hl as (_ & Ha' & _ & _). congruence.
    + intros _ n. rewrite Hpag. apply leyenda_beneficios_fuera.
  - rewrite Hc.
    destruct (desde_beneficios_page (tras_grafica file ui)) as [es Hes].
    rewrite Hes.
    split; [|split; [|split; [|split; [|repeat split]]]].
    + rewrite in_app_iff. left.
      change (page (tras_grafica file ui))
        with (page (tras_titulo file ui) ++
              [PlotlyChart (grafica (df (tras_deteccion file ui)))])%list.
      rewrite in_app_iff. left. exact Hin.
    + rewrite desde_beneficios_preserves_dias. reflexivity.
    + intros _. rewrite !in_app_iff. right. left. cbn. tauto.
    + intros Hl'. rewrite Hl in Hl'. discriminate Hl'.
Qed.

Lemma captions_of_the_two_sections_witness :
  In leyenda_demanda (page (snd (run archivo_ejemplo barra_siete))) /\
  In (leyenda_beneficios 7) (page (snd (run archivo_ejemplo barra_siete))).
Proof.
  pose proof (captions_of_the_two_sections archivo_ejemplo barra_siete
                eq_refl eq_refl) as (_ & Hd & _ & Hb & _).
  exact (conj Hd (Hb eq_refl)).
Defined.

(** C10.  A run on a file that lacks one of the columns Fecha, ACTIVA
    and Tipo ends with an exception, and no chart and no metric is on the
    page when it does. *)
Theorem missing_column_aborts :
  forall file ui,
    tiene_columnas file = false ->
    (exists e, fst (run file ui) = inl e) /\
    filter es_grafica_o_metrica (page (snd (run file ui))) = [].
Proof.
  intros file ui Hc.
  destruct (run_casos file ui)
    as [[_ Hr]|[(_ & _ & Hr)|[(_ & _ & _ & Hr)|[(_ & _ & _ & _ & Hr)|[Hl _]]]]];
    try (rewrite Hr; split; [eexists; reflexivity|reflexivity]).
  unfold llega_a_beneficios in Hl. rewrite Hc in Hl. discriminate Hl.
Qed.

Lemma missing_column_aborts_witness :
  (exists e, fst (run archivo_sin_Tipo barra_por_defecto) = inl e) /\
  filter es_grafica_o_metrica
    (page (snd (run archivo_sin_Tipo barra_por_defecto))) = [].
Proof.
  exact (missing_column_aborts archivo_sin_Tipo barra_por_defecto eq_refl).
Defined.

(** ** Rounding in binary64 is monotone *)

Lemma digits2_pos_bounds p :
  2 ^ (Zpos (digits2_pos p) - 1) <= Zpos p < 2 ^ Zpos (digits2_pos p).
Proof.
  induction p as [p IH|p IH|]; cbn [digits2_pos].
  - rewrite Pos2Z.inj_succ.
    replace (Z.succ (Zpos (digits2_pos p)) - 1) with (Z.succ (Zpos (digits2_pos p) - 1)) by lia.
    rewrite !Z.pow_succ_r by lia. lia.
  - rewrite Pos2Z.inj_succ.
    replace (Z.succ (Zpos (digits2_pos p)) - 1) with (Z.succ (Zpos (digits2_pos p) - 1)) by lia.
    rewrite !Z.pow_succ_r by lia. lia.
  - cbn. lia.
Qed.



Lemma shr_1_spec m r s :
  0 <= m ->
  shr_1 (Build_shr_record m r s) = Build_shr_record (m / 2) (Z.odd m) (r || s).
Proof.
  intros Hm. destruct m as [|[p|p|]|p]; try lia; cbn [shr_1].
  - reflexivity.
  - f_equal. rewrite Pos2Z.inj_xI. apply Z.div_unique with 1; lia.
  - f_equal. rewrite Pos2Z.inj_xO. apply Z.div_unique with 0; lia.
  - reflexivity.
Qed.

Lemma rk_double A B :
  0 <= A -> 0 < B ->
  rk A (2 * B) = 2 * (rk A B / 4) + (if rk A B mod 4 =? 0 then 0 else 1).
Proof.
  intros HA HB. unfold rk.
  pose proof (Z.div_mod (2 * A) B ltac:(lia)) as E1.
  pose proof (Z.mod_pos_bound (2 * A) B HB) as B1.
  pose proof (Z.div_mod (2 * A) (2 * B) ltac:(lia)) as E2.
  pose proof (Z.mod_pos_bound (2 * A) (2 * B) ltac:(lia)) as B2.
  set (t := 2 * A / B) in *. set (u := (2 * A) mod B) in *.
  set (t' := 2 * A / (2 * B)) in *. set (u' := (2 * A) mod (2 * B)) in *.
  assert (Ht : t = 2 * t' + (if u' <? B then 0 else 1)).
  { destruct (Z.ltb_spec u' B).
    - symmetry; unfold t; apply Z.div_unique with u'; lia.
    - symmetry; unfold t; apply Z.div_unique with (u' - B); lia. }
  assert (Hu : u = if u' <? B then u' else u' - B).
  { destruct (Z.ltb_spec u' B).
    - symmetry; unfold u; apply Z.mod_unique with (2 * t'); lia.
    - symmetry; unfold u; apply Z.mod_unique with (2 * t' + 1); lia. }
  assert (D4 : forall x q r, x = 4 * q + r -> 0 <= r < 4 ->
                 x / 4 = q /\ x mod 4 = r).
  { intros x q r Hx Hr. split; symmetry;
      [apply Z.div_unique with r|apply Z.mod_unique with q]; lia. }
  destruct (u' <? B) eqn:Eb;
    [apply Z.ltb_lt in Eb|apply Z.ltb_ge in Eb];
    destruct (Z.eqb_spec u 0) as [Eu|Eu]; destruct (Z.eqb_spec u' 0) as [Eu'|Eu'];
    try lia.
  - destruct (D4 (2 * t + 0) t' 0 ltac:(lia) ltac:(lia)) as [-> ->]; reflexivity.
  - destruct (D4 (2 * t + 1) t' 1 ltac:(lia) ltac:(lia)) as [-> ->]; reflexivity.
  - destruct (D4 (2 * t + 0) t' 2 ltac:(lia) ltac:(lia)) as [-> ->]; reflexivity.
  - destruct (D4 (2 * t + 1) t' 3 ltac:(lia) ltac:(lia)) as [-> ->]; reflexivity.
Qed.

Lemma rank_div4 m r s :
  rank (Build_shr_record m r s) / 4 = m /\
  rank (Build_shr_record m r s) mod 4 = 2 * Z.b2z r + Z.b2z s.
Proof.
  unfold rank; cbn [shr_m shr_r shr_s].
  split; symmetry;
    [apply Z.div_unique with (2 * Z.b2z r + Z.b2z s)
    |apply Z.mod_unique with m]; destruct r, s; cbn; lia.
Qed.

Lemma rank_shr_1 mrs :
  0 <= shr_m mrs ->
  rank (shr_1 mrs) = 2 * (rank mrs / 4) + (if rank mrs mod 4 =? 0 then 0 else 1) /\
  0 <= shr_m (shr_1 mrs).
Proof.
  destruct mrs as [m r s]; cbn [shr_m]; intros Hm.
  rewrite shr_1_spec by exact Hm.
  destruct (rank_div4 m r s) as [-> ->].
  unfold rank; cbn [shr_m shr_r shr_s].
  pose proof (Z.div_mod m 2 ltac:(lia)) as Em.
  pose proof (Z.mod_pos_bound m 2 ltac:(lia)) as Bm.
  rewrite Zmod_odd in Em, Bm.
  split; [|apply Z.div_pos; lia].
  replace (if 2 * Z.b2z r + Z.b2z s =? 0 then 0 else 1) with (Z.b2z (r || s))
    by (destruct r, s; reflexivity).
  destruct (Z.odd m); cbn [Z.b2z] in *; lia.
Qed.

Lemma two_pow_xO p : 2 ^ Zpos p~0 = 2 ^ Zpos p * 2 ^ Zpos p.
Proof.
  replace (Zpos p~0) with (Zpos p + Zpos p) by lia.
  apply Z.pow_add_r; lia.
Qed.

Lemma two_pow_xI p : 2 ^ Zpos p~1 = 2 * (2 ^ Zpos p * 2 ^ Zpos p).
Proof.
  replace (Zpos p~1) with (1 + (Zpos p + Zpos p)) by lia.
  rewrite !Z.pow_add_r by lia. reflexivity.
Qed.

Lemma rank_iter p : forall mrs A B,
  0 <= A -> 0 < B -> 0 <= shr_m mrs ->
  rank mrs = rk A B ->
  rank (iter_pos shr_1 p mrs) = rk A (B * 2 ^ Zpos p) /\
  0 <= shr_m (iter_pos shr_1 p mrs).
Proof.
  assert (Hone : forall mrs A B,
             0 <= A -> 0 < B -> 0 <= shr_m mrs -> rank mrs = rk A B ->
             rank (shr_1 mrs) = rk A (B * 2) /\ 0 <= shr_m (shr_1 mrs)).
  { intros mrs A B HA HB Hm Hr.
    destruct (rank_shr_1 mrs Hm) as [E Hm']. split; [|exact Hm'].
    rewrite E, Hr, (Z.mul_comm B 2). symmetry. apply rk_double; assumption. }
  induction p as [p IH|p IH|]; intros mrs A B HA HB Hm Hr; cbn [iter_pos].
  - destruct (Hone mrs A B HA HB Hm Hr) as [E1 M1].
    destruct (IH _ A (B * 2) HA ltac:(lia) M1 E1) as [E2 M2].
    destruct (IH _ A (B * 2 * 2 ^ Zpos p) HA ltac:(nia) M2 E2) as [E3 M3].
    split; [|exact M3]. rewrite E3. f_equal.
    rewrite two_pow_xI. ring.
  - destruct (IH _ A B HA HB Hm Hr) as [E2 M2].
    destruct (IH _ A (B * 2 ^ Zpos p) HA ltac:(nia) M2 E2) as [E3 M3].
    split; [|exact M3]. rewrite E3. f_equal.
    rewrite two_pow_xO. ring.
  - destruct (Hone mrs A B HA HB Hm Hr) as [E1 M1]. split; [|exact M1].
    rewrite E1. reflexivity.
Qed.

Lemma rk_mono A1 B1 A2 B2 :
  0 <= A1 -> 0 < B1 -> 0 < B2 ->
  A1 * B2 <= A2 * B1 ->
  rk A1 B1 <= rk A2 B2.
Proof.
  intros HA HB1 HB2 Hle. unfold rk.
  pose proof (Z.div_mod (2 * A1) B1 ltac:(lia)) as E1.
  pose proof (Z.mod_pos_bound (2 * A1) B1 HB1) as M1.
  pose proof (Z.div_mod (2 * A2) B2 ltac:(lia)) as E2.
  pose proof (Z.mod_pos_bound (2 * A2) B2 HB2) as M2.
  set (t1 := 2 * A1 / B1) in *. set (u1 := (2 * A1) mod B1) in *.
  set (t2 := 2 * A2 / B2) in *. set (u2 := (2 * A2) mod B2) in *.
  assert (Ht : t1 <= t2).
  { apply Z.lt_succ_r. apply Z.mul_lt_mono_pos_l with (B1 * B2); nia. }
  destruct (Z.eqb_spec u1 0), (Z.eqb_spec u2 0); try lia.
  assert (t1 < t2); [|lia].
  destruct (Z.eq_dec t1 t2) as [Heq|]; [|lia].
  exfalso. subst u2. assert (u1 * B2 <= 0) by nia. nia.
Qed.

Lemma rk_shr_m mrs A B :
  0 <= A -> 0 < B -> rank mrs = rk A B -> shr_m mrs = A / B.
Proof.
  intros HA HB Hr. destruct mrs as [m r s]; cbn [shr_m].
  destruct (rank_div4 m r s) as [<- _]. rewrite Hr. unfold rk.
  pose proof (Z.div_mod (2 * A) B ltac:(lia)) as E1.
  pose proof (Z.mod_pos_bound (2 * A) B HB) as M1.
  pose proof (Z.div_mod A B ltac:(lia)) as E2.
  pose proof (Z.mod_pos_bound A B HB) as M2.
  set (t := 2 * A / B) in *. set (u := (2 * A) mod B) in *.
  set (q := A / B) in *. set (v := A mod B) in *.
  assert (Ht : t = 2 * q + (if 2 * v <? B then 0 else 1)).
  { destruct (Z.ltb_spec (2 * v) B); symmetry; unfold t.
    - apply Z.div_unique with (2 * v); lia.
    - apply Z.div_unique with (2 * v - B); lia. }
  symmetry.
  destruct (2 * v <? B), (u =? 0).
  - apply Z.div_unique with 0; lia.
  - apply Z.div_unique with 1; lia.
  - apply Z.div_unique with 2; lia.
  - apply Z.div_unique with 3; lia.
Qed.


Lemma rne_bounds mrs : shr_m mrs <= rne mrs <= shr_m mrs + 1.
Proof.
  destruct mrs as [m [|] [|]]; unfold rne; cbn; try lia.
  destruct (Z.even m); lia.
Qed.

Lemma rne_mono mrs1 mrs2 :
  rank mrs1 <= rank mrs2 -> rne mrs1 <= rne mrs2.
Proof.
  intros Hr.
  pose proof (rne_bounds mrs1). pose proof (rne_bounds mrs2).
  destruct (Z.eq_dec (shr_m mrs1) (shr_m mrs2)) as [Heq|Hne].
  - destruct mrs1 as [m1 r1 s1], mrs2 as [m2 r2 s2]; cbn [shr_m] in *. subst m2.
    unfold rank in Hr; cbn [shr_m shr_r shr_s] in Hr.
    unfold rne; cbn [shr_m loc_of_shr_record].
    destruct r1, s1, r2, s2; cbn [Z.b2z round_nearest_even] in *; try lia;
      destruct (Z.even m1); lia.
  - assert (shr_m mrs1 < shr_m mrs2); [|lia].
    unfold rank in Hr.
    destruct (shr_r mrs1), (shr_s mrs1), (shr_r mrs2), (shr_s mrs2);
      cbn [Z.b2z] in Hr; lia.
Qed.

Lemma Zdigits2_bounds m :
  0 < m -> 2 ^ (Zdigits2 m - 1) <= m < 2 ^ Zdigits2 m.
Proof.
  destruct m as [|p|p]; try lia. intros _. apply digits2_pos_bounds.
Qed.

Lemma Zdigits2_nonneg m : 0 <= Zdigits2 m.
Proof. destruct m; cbn; lia. Qed.

Lemma Zdigits2_le m n : 0 <= m -> 0 <= n -> m < 2 ^ n -> Zdigits2 m <= n.
Proof.
  intros Hm Hn Hlt. destruct (Z.eq_dec m 0) as [->|]; [cbn; lia|].
  destruct (Zdigits2_bounds m ltac:(lia)) as [Hlo _].
  destruct (Z.le_gt_cases (Zdigits2 m) n) as [|Hgt]; [assumption|exfalso].
  assert (2 ^ n <= 2 ^ (Zdigits2 m - 1)) by (apply Z.pow_le_mono_r; lia).
  lia.
Qed.

Lemma Zdigits2_ge m n : 0 <= n -> 2 ^ n <= m -> n + 1 <= Zdigits2 m.
Proof.
  intros Hn Hle.
  assert (0 < m) by (pose proof (Z.pow_pos_nonneg 2 n); lia).
  destruct (Zdigits2_bounds m ltac:(lia)) as [_ Hhi].
  destruct (Z.le_gt_cases (n + 1) (Zdigits2 m)) as [|Hgt]; [assumption|exfalso].
  assert (2 ^ Zdigits2 m <= 2 ^ n)
    by (apply Z.pow_le_mono_r; pose proof (Zdigits2_nonneg m); lia).
  lia.
Qed.

Lemma div_pow2_lt m d k p :
  0 <= m -> m < 2 ^ d -> 0 <= d -> 0 <= k -> 0 <= p -> d - k <= p ->
  m / 2 ^ k < 2 ^ p.
Proof.
  intros Hm Hlt Hd Hk Hp Hle.
  apply Z.div_lt_upper_bound; [apply Z.pow_pos_nonneg; lia|].
  rewrite <- Z.pow_add_r by lia.
  apply Z.lt_le_trans with (2 ^ d); [exact Hlt|].
  apply Z.pow_le_mono_r; lia.
Qed.

Lemma div_pow2_ge m d k :
  0 <= k -> k <= d -> 2 ^ d <= m -> 2 ^ (d - k) <= m / 2 ^ k.
Proof.
  intros Hk Hd Hle.
  apply Z.div_le_lower_bound; [apply Z.pow_pos_nonneg; lia|].
  rewrite <- Z.pow_add_r by lia. replace (k + (d - k)) with d by lia. exact Hle.
Qed.

Lemma shr_rank mrs e n A B :
  0 <= A -> 0 < B -> 0 <= shr_m mrs -> rank mrs = rk A B -> 0 <= n ->
  snd (shr mrs e n) = e + n /\
  rank (fst (shr mrs e n)) = rk A (B * 2 ^ n) /\
  0 <= shr_m (fst (shr mrs e n)).
Proof.
  intros HA HB Hm Hr Hn. destruct n as [|p|p]; try lia; cbn [shr fst snd].
  - rewrite Z.mul_1_r. repeat split; [lia|exact Hr|exact Hm].
  - destruct (rank_iter p mrs A B HA HB Hm Hr) as [E M]. repeat split; assumption.
Qed.

Lemma shr_nop mrs e n : n <= 0 -> shr mrs e n = (mrs, e).
Proof. destruct n; [reflexivity|lia|reflexivity]. Qed.

Lemma rank_of_loc_m m l : shr_m (shr_record_of_loc m l) = m.
Proof. destruct l as [|[| |]]; reflexivity. Qed.

Section Round.
Variables prec emax : Z.
Hypothesis Hprec : 0 < prec.
Hypothesis Hemax : prec < emax.


Lemma fexp_ge_emin e : SpecFloat.emin prec emax <= fexp prec emax e.
Proof. unfold fexp. lia. Qed.

Lemma fexp_mono e1 e2 : e1 <= e2 -> fexp prec emax e1 <= fexp prec emax e2.
Proof. unfold fexp. lia. Qed.

Lemma stage2 sx m e :
  0 <= m <= 2 ^ prec -> SpecFloat.emin prec emax <= e ->
  (let '(mrs, e') := shr_fexp prec emax m e loc_Exact in
   match shr_m mrs with
   | Z0 => S754_zero sx
   | Zpos p => if e' <=? emax - prec then S754_finite sx p e' else S754_infinity sx
   | Zneg _ => S754_nan
   end) = finish prec emax sx m e.
Proof.
  intros [Hm0 Hm1] He. unfold finish, shr_fexp.
  destruct (Z.eqb_spec m 0) as [->|Hne].
  - cbn [Zdigits2 shr_record_of_loc]. rewrite shr_nop by (unfold fexp; lia).
    reflexivity.
  - destruct (Z.ltb_spec m (2 ^ prec)) as [Hlt|Hge].
    + assert (Hd : Zdigits2 m <= prec) by (apply Zdigits2_le; lia).
      rewrite shr_nop by (unfold fexp; lia).
      cbn [shr_record_of_loc shr_m]. destruct m as [|p|p]; try lia. reflexivity.
    + assert (Hm : m = 2 ^ prec) by lia.
      assert (Hd : Zdigits2 m = prec + 1).
      { apply Z.le_antisymm.
        - apply Zdigits2_le; try lia. rewrite Hm.
          apply Z.pow_lt_mono_r; lia.
        - apply Zdigits2_ge; lia. }
      rewrite Hd.
      replace (fexp prec emax (prec + 1 + e) - e) with 1 by (unfold fexp; lia).
      cbn [shr shr_record_of_loc iter_pos].
      rewrite shr_1_spec by lia. cbn [shr_m].
      assert (Hhalf : m / 2 = 2 ^ (prec - 1)).
      { rewrite Hm. replace prec with (1 + (prec - 1)) at 1 by lia.
        rewrite Z.pow_add_r by lia. change (2 ^ 1) with 2.
        rewrite Z.mul_comm. apply Z.div_mul. lia. }
      rewrite Hhalf.
      pose proof (Z.pow_pos_nonneg 2 (prec - 1) ltac:(lia) ltac:(lia)) as Hpos.
      destruct (2 ^ (prec - 1)) as [|p|p]; try lia. reflexivity.
Qed.

Lemma bra_spec sx mx ex lx A B :
  0 <= A -> 0 < B -> 0 <= mx ->
  rank (shr_record_of_loc mx lx) = rk A B ->
  ex <= fexp prec emax (Zdigits2 mx + ex) ->
  exists mrs,
    rank mrs = rk A (B * 2 ^ (fexp prec emax (Zdigits2 mx + ex) - ex)) /\
    0 <= shr_m mrs /\
    shr_m mrs = mx / 2 ^ (fexp prec emax (Zdigits2 mx + ex) - ex) /\
    shr_m mrs < 2 ^ prec /\
    binary_round_aux prec emax sx mx ex lx =
      finish prec emax sx (rne mrs) (fexp prec emax (Zdigits2 mx + ex)).
Proof.
  intros HA HB Hm Hr Hk.
  set (es := fexp prec emax (Zdigits2 mx + ex)) in *.
  assert (Hm0 : 0 <= shr_m (shr_record_of_loc mx lx))
    by (rewrite rank_of_loc_m; exact Hm).
  destruct (shr_rank (shr_record_of_loc mx lx) ex (es - ex) A B HA HB Hm0 Hr
              ltac:(lia)) as (He & Hrk & Hpos).
  assert (Hmx : mx = A / B).
  { rewrite <- (rank_of_loc_m mx lx). apply rk_shr_m; assumption. }
  assert (Hp2 : 0 < 2 ^ (es - ex)) by (apply Z.pow_pos_nonneg; lia).
  assert (Hsm : shr_m (fst (shr (shr_record_of_loc mx lx) ex (es - ex)))
                = mx / 2 ^ (es - ex)).
  { rewrite (rk_shr_m _ A (B * 2 ^ (es - ex))) by (try assumption; nia).
    rewrite Hmx. symmetry. apply Z.div_div; lia. }
  assert (Hlt : mx / 2 ^ (es - ex) < 2 ^ prec).
  { destruct (Z.eq_dec mx 0) as [->|Hne].
    - rewrite Z.div_0_l by lia. apply Z.pow_pos_nonneg; lia.
    - destruct (Zdigits2_bounds mx ltac:(lia)) as [_ Hhi].
      apply div_pow2_lt with (Zdigits2 mx); try lia.
      + apply Zdigits2_nonneg.
      + subst es. unfold fexp. lia. }
  exists (fst (shr (shr_record_of_loc mx lx) ex (es - ex))).
  split; [exact Hrk|]. split; [exact Hpos|]. split; [exact Hsm|].
  split; [rewrite Hsm; exact Hlt|].
  unfold binary_round_aux. fold es.
  unfold shr_fexp at 1. fold es.
  destruct (shr (shr_record_of_loc mx lx) ex (es - ex)) as [mrs e'] eqn:Es.
  cbn [fst snd] in *. subst e'. replace (ex + (es - ex)) with es by lia.
  fold (rne mrs).
  apply stage2.
  - pose proof (rne_bounds mrs). lia.
  - apply fexp_ge_emin.
Qed.

Lemma SFleb_finite m1 e1 m2 e2 :
  e1 < e2 \/ (e1 = e2 /\ Zpos m1 <= Zpos m2) ->
  SFleb (S754_finite false m1 e1) (S754_finite false m2 e2) = true.
Proof.
  intros Hle. unfold SFleb, SFcompare.
  destruct Hle as [Hlt|[-> Hm]].
  - rewrite (proj2 (Z.compare_lt_iff e1 e2) Hlt). reflexivity.
  - rewrite Z.compare_refl.
    change (Pos.compare_cont Eq m1 m2) with (Pos.compare m1 m2).
    destruct (Pos.compare_spec m1 m2); try reflexivity. lia.
Qed.

Lemma Z2Pos_le a b : 0 < a -> a <= b -> Zpos (Z.to_pos a) <= Zpos (Z.to_pos b).
Proof. intros. rewrite !Z2Pos.id by lia. assumption. Qed.

Lemma finish_mono_m m1 m2 e :
  0 <= m1 -> m1 <= m2 -> m2 <= 2 ^ prec ->
  SFleb (finish prec emax false m1 e) (finish prec emax false m2 e) = true.
Proof.
  intros H0 H12 H2. unfold finish.
  pose proof (Z.pow_pos_nonneg 2 (prec - 1) ltac:(lia) ltac:(lia)) as Hp1.
  assert (Hpp : 2 ^ prec = 2 * 2 ^ (prec - 1)).
  { replace prec with (1 + (prec - 1)) at 1 by lia.
    rewrite Z.pow_add_r by lia. reflexivity. }
  destruct (Z.eqb_spec m1 0), (Z.eqb_spec m2 0); try lia.
  - reflexivity.
  - destruct (m2 <? 2 ^ prec);
      [destruct (e <=? emax - prec)|destruct (e + 1 <=? emax - prec)];
      reflexivity.
  - destruct (Z.ltb_spec m1 (2 ^ prec)), (Z.ltb_spec m2 (2 ^ prec)); try lia.
    + destruct (e <=? emax - prec); [|reflexivity].
      apply SFleb_finite. right. split; [reflexivity|]. apply Z2Pos_le; lia.
    + destruct (Z.leb_spec e (emax - prec)), (Z.leb_spec (e + 1) (emax - prec));
        try reflexivity; try lia.
      apply SFleb_finite. left. lia.
    + destruct (e + 1 <=? emax - prec); [|reflexivity].
      apply SFleb_finite. right. split; [reflexivity|]. lia.
Qed.

Lemma finish_mono_e m1 m2 e1 e2 :
  0 <= m1 -> m1 <= 2 ^ prec ->
  2 ^ (prec - 1) <= m2 -> m2 <= 2 ^ prec ->
  e1 < e2 ->
  SFleb (finish prec emax false m1 e1) (finish prec emax false m2 e2) = true.
Proof.
  intros H0 H1 H2 H3 He. unfold finish.
  pose proof (Z.pow_pos_nonneg 2 (prec - 1) ltac:(lia) ltac:(lia)) as Hp1.
  destruct (Z.eqb_spec m2 0); try lia.
  destruct (Z.eqb_spec m1 0).
  - destruct (m2 <? 2 ^ prec);
      [destruct (e2 <=? emax - prec)|destruct (e2 + 1 <=? emax - prec)];
      reflexivity.
  - destruct (Z.ltb_spec m1 (2 ^ prec)), (Z.ltb_spec m2 (2 ^ prec));
      destruct (Z.leb_spec e1 (emax - prec)), (Z.leb_spec e2 (emax - prec)),
        (Z.leb_spec (e1 + 1) (emax - prec)), (Z.leb_spec (e2 + 1) (emax - prec));
      try reflexivity; try lia;
      apply SFleb_finite;
      try (left; lia);
      (destruct (Z.eq_dec (e1 + 1) e2); [right|left; lia]);
      (split; [assumption|]); rewrite !Z2Pos.id by lia; lia.
Qed.

Lemma Zdigits2_lt m : 0 <= m -> m < 2 ^ Zdigits2 m.
Proof.
  intros Hm. destruct (Z.eq_dec m 0) as [->|]; [reflexivity|].
  apply Zdigits2_bounds. lia.
Qed.

(** Magnitudes are ordered as the values are. *)
Lemma mag_le A1 B1 A2 B2 a1 a2 :
  0 <= A1 -> 0 < B1 -> 0 <= A2 -> 0 < B2 -> 0 <= a1 -> 0 <= a2 ->
  0 < A1 / B1 ->
  A1 * 2 ^ a1 * B2 <= A2 * 2 ^ a2 * B1 ->
  Zdigits2 (A1 / B1) + a1 <= Zdigits2 (A2 / B2) + a2.
Proof.
  intros HA1 HB1 HA2 HB2 Ha1 Ha2 Hpos Hx.
  set (d1 := Zdigits2 (A1 / B1)). set (d2 := Zdigits2 (A2 / B2)).
  assert (Hd2 : 0 <= d2) by apply Zdigits2_nonneg.
  assert (Hd1 : 1 <= d1).
  { apply (Zdigits2_ge (A1 / B1) 0); [lia|]. change (2 ^ 0) with 1. lia. }
  destruct (Zdigits2_bounds (A1 / B1) Hpos) as [Hlo _]. fold d1 in Hlo.
  assert (Hhi : A2 / B2 < 2 ^ d2)
    by (apply Zdigits2_lt, Z.div_pos; lia).
  pose proof (Z.mul_div_le A1 B1 HB1) as P1.
  pose proof (Z.mul_succ_div_gt A2 B2 HB2) as P2.
  set (X := 2 ^ (d1 - 1)) in *. set (Y := 2 ^ a1) in *.
  set (Zz := 2 ^ d2) in *. set (W := 2 ^ a2) in *.
  assert (HX : 0 < X) by (apply Z.pow_pos_nonneg; lia).
  assert (HY : 0 < Y) by (apply Z.pow_pos_nonneg; lia).
  assert (HZ : 0 < Zz) by (apply Z.pow_pos_nonneg; lia).
  assert (HW : 0 < W) by (apply Z.pow_pos_nonneg; lia).
  assert (Q1 : X * B1 <= A1) by nia.
  assert (Q2 : A2 + 1 <= Zz * B2) by nia.
  assert (Q3 : X * Y * (B1 * B2) <= A1 * Y * B2) by nia.
  assert (Q4 : A2 * W * B1 < Zz * W * (B1 * B2)) by nia.
  assert (Q5 : X * Y < Zz * W) by nia.
  unfold X, Y, Zz, W in Q5. rewrite <- !Z.pow_add_r in Q5 by lia.
  apply Z.pow_lt_mono_r_iff in Q5; lia.
Qed.

Theorem bra_mono mx1 ex1 lx1 A1 B1 mx2 ex2 lx2 A2 B2 :
  0 <= A1 -> 0 < B1 -> 0 <= mx1 ->
  rank (shr_record_of_loc mx1 lx1) = rk A1 B1 ->
  ex1 <= fexp prec emax (Zdigits2 mx1 + ex1) ->
  0 <= A2 -> 0 < B2 -> 0 <= mx2 ->
  rank (shr_record_of_loc mx2 lx2) = rk A2 B2 ->
  ex2 <= fexp prec emax (Zdigits2 mx2 + ex2) ->
  A1 * 2 ^ (ex1 - Z.min ex1 ex2) * B2 <= A2 * 2 ^ (ex2 - Z.min ex1 ex2) * B1 ->
  SFleb (binary_round_aux prec emax false mx1 ex1 lx1)
        (binary_round_aux prec emax false mx2 ex2 lx2) = true.
Proof.
  intros HA1 HB1 Hm1 Hr1 Hk1 HA2 HB2 Hm2 Hr2 Hk2 Hx.
  destruct (bra_spec false mx1 ex1 lx1 A1 B1 HA1 HB1 Hm1 Hr1 Hk1)
    as (mrs1 & R1 & P1 & S1 & L1 & ->).
  destruct (bra_spec false mx2 ex2 lx2 A2 B2 HA2 HB2 Hm2 Hr2 Hk2)
    as (mrs2 & R2 & P2 & S2 & L2 & ->).
  assert (E1 : mx1 = A1 / B1)
    by (rewrite <- (rank_of_loc_m mx1 lx1); apply rk_shr_m;
        [assumption|assumption|exact Hr1]).
  assert (E2 : mx2 = A2 / B2)
    by (rewrite <- (rank_of_loc_m mx2 lx2); apply rk_shr_m;
        [assumption|assumption|exact Hr2]).
  set (es1 := fexp prec emax (Zdigits2 mx1 + ex1)) in *.
  set (es2 := fexp prec emax (Zdigits2 mx2 + ex2)) in *.
  set (L := Z.min ex1 ex2) in *.
  pose proof (rne_bounds mrs1) as N1. pose proof (rne_bounds mrs2) as N2.
  assert (Hes : es1 <= es2).
  { destruct (Z.eq_dec mx1 0) as [Hz|Hnz].
    - assert (es1 = SpecFloat.emin prec emax).
      { subst es1. rewrite Hz in *. cbn [Zdigits2] in *.
        unfold fexp in *. lia. }
      pose proof (fexp_ge_emin (Zdigits2 mx2 + ex2)) as Hge. fold es2 in Hge. lia.
    - apply fexp_mono.
      pose proof (mag_le A1 B1 A2 B2 (ex1 - L) (ex2 - L) HA1 HB1 HA2 HB2
                    ltac:(lia) ltac:(lia) ltac:(lia) Hx) as Hmag.
      rewrite <- E1, <- E2 in Hmag. lia. }
  destruct (Z.eq_dec es1 es2) as [Heq|Hne].
  - rewrite <- Heq. apply finish_mono_m; try lia.
    apply rne_mono. rewrite R1, R2.
    set (c := es1 - Z.max ex1 ex2).
    assert (Hc : 0 <= c) by lia.
    replace (es1 - ex1) with ((ex2 - L) + c) by lia.
    replace (es2 - ex2) with ((ex1 - L) + c) by lia.
    rewrite !Z.pow_add_r by lia.
    assert (Hpc : 0 < 2 ^ c) by (apply Z.pow_pos_nonneg; lia).
    assert (Hp1 : 0 < 2 ^ (ex1 - L)) by (apply Z.pow_pos_nonneg; lia).
    assert (Hp2 : 0 < 2 ^ (ex2 - L)) by (apply Z.pow_pos_nonneg; lia).
    apply rk_mono; try lia; try nia.
  - apply finish_mono_e; try lia.
    assert (Hn : es2 = Zdigits2 mx2 + ex2 - prec).
    { pose proof (fexp_ge_emin (Zdigits2 mx1 + ex1)) as Hge. fold es1 in Hge.
      subst es2. unfold fexp in *. lia. }
    assert (Hpos2 : 0 < mx2).
    { destruct (Z.eq_dec mx2 0) as [Hz|]; [|lia]. exfalso.
      rewrite Hz in *. cbn [Zdigits2] in *. lia. }
    destruct (Zdigits2_bounds mx2 Hpos2) as [Hlo _].
    assert (2 ^ (prec - 1) <= shr_m mrs2); [|lia].
    rewrite S2.
    replace (prec - 1) with ((Zdigits2 mx2 - 1) - (es2 - ex2)) by lia.
    apply div_pow2_ge; lia.
Qed.


Lemma canonical_inv m e :
  bounded prec emax m e = true ->
  fexp prec emax (Zpos (digits2_pos m) + e) = e /\ e <= emax - prec.
Proof.
  unfold bounded, canonical_mantissa. rewrite andb_true_iff.
  intros [Hc He]. apply Z.eqb_eq in Hc. apply Z.leb_le in He. tauto.
Qed.

Lemma order_of_leb mx ex my ey :
  bounded prec emax mx ex = true ->
  bounded prec emax my ey = true ->
  SFleb (S754_finite false mx ex) (S754_finite false my ey) = true ->
  Zpos mx * 2 ^ (ex - Z.min ex ey) <= Zpos my * 2 ^ (ey - Z.min ex ey).
Proof.
  intros Bx By Hle.
  destruct (canonical_inv _ _ Bx) as [Cx _].
  destruct (canonical_inv _ _ By) as [Cy _].
  pose proof (digits2_pos_bounds mx) as [_ Hx].
  pose proof (digits2_pos_bounds my) as [Hy _].
  unfold SFleb, SFcompare in Hle.
  destruct (Z.compare_spec ex ey) as [Heq|Hlt|Hgt]; try discriminate.
  - subst ey. rewrite Z.min_id, Z.sub_diag. change (2 ^ 0) with 1.
    change (Pos.compare_cont Eq mx my) with (Pos.compare mx my) in Hle.
    destruct (Pos.compare_spec mx my); try discriminate; lia.
  - rewrite Z.min_l by lia. rewrite Z.sub_diag. change (2 ^ 0) with 1.
    assert (Hdy : Zpos (digits2_pos my) = prec) by (unfold fexp in *; lia).
    assert (Hdx : Zpos (digits2_pos mx) <= prec) by (unfold fexp in *; lia).
    rewrite Hdy in Hy.
    assert (2 ^ Zpos (digits2_pos mx) <= 2 ^ prec)
      by (apply Z.pow_le_mono_r; lia).
    assert (Hpp : 2 ^ prec = 2 * 2 ^ (prec - 1)).
    { replace prec with (1 + (prec - 1)) at 1 by lia.
      rewrite Z.pow_add_r by lia. reflexivity. }
    assert (2 <= 2 ^ (ey - ex)).
    { change 2 with (2 ^ 1) at 1. apply Z.pow_le_mono_r; lia. }
    nia.
Qed.

Lemma digits_mul_ge a b :
  0 < a -> 0 < b -> Zdigits2 a + Zdigits2 b - 1 <= Zdigits2 (a * b).
Proof.
  intros Ha Hb.
  destruct (Zdigits2_bounds a Ha) as [La _].
  destruct (Zdigits2_bounds b Hb) as [Lb _].
  assert (Da : 1 <= Zdigits2 a).
  { apply (Zdigits2_ge a 0); [lia|]. change (2 ^ 0) with 1. lia. }
  assert (Db : 1 <= Zdigits2 b).
  { apply (Zdigits2_ge b 0); [lia|]. change (2 ^ 0) with 1. lia. }
  replace (Zdigits2 a + Zdigits2 b - 1)
    with ((Zdigits2 a - 1) + (Zdigits2 b - 1) + 1) by lia.
  apply Zdigits2_ge; [lia|].
  rewrite Z.pow_add_r by lia.
  assert (0 < 2 ^ (Zdigits2 a - 1)) by (apply Z.pow_pos_nonneg; lia).
  assert (0 < 2 ^ (Zdigits2 b - 1)) by (apply Z.pow_pos_nonneg; lia).
  nia.
Qed.

Lemma mul_shift_ok mx ex mc ec :
  bounded prec emax mx ex = true ->
  bounded prec emax mc ec = true ->
  ex + ec <= fexp prec emax (Zdigits2 (Zpos (mx * mc)) + (ex + ec)).
Proof.
  intros Bx Bc.
  destruct (canonical_inv _ _ Bx) as [Cx _].
  destruct (canonical_inv _ _ Bc) as [Cc _].
  pose proof (digits_mul_ge (Zpos mx) (Zpos mc) ltac:(lia) ltac:(lia)) as Hd.
  rewrite Pos2Z.inj_mul. cbn [Zdigits2] in Hd.
  change (Zdigits2 (Zpos mx * Zpos mc)) with (Zdigits2 (Zpos (mx * mc))) in *.
  unfold fexp, SpecFloat.emin in *. cbn [Zdigits2] in *. lia.
Qed.

Lemma finish_nonneg m e : 0 <= m -> nonneg (finish prec emax false m e) = true.
Proof.
  intros Hm. unfold finish.
  destruct (m =? 0); [reflexivity|].
  destruct (m <? 2 ^ prec);
    [destruct (e <=? emax - prec)|destruct (e + 1 <=? emax - prec)];
    reflexivity.
Qed.

Lemma SFleb_zero_l s y : nonneg y = true -> SFleb (S754_zero s) y = true.
Proof. destruct y as [?|[|]| |[|] ? ?]; cbn; congruence. Qed.

Lemma SFleb_inf_r x : nonneg x = true -> SFleb x (S754_infinity false) = true.
Proof. destruct x as [?|[|]| |[|] ? ?]; cbn; congruence. Qed.

Lemma rank_exact m : rank (shr_record_of_loc m loc_Exact) = rk m 1.
Proof.
  unfold rank, rk; cbn [shr_record_of_loc shr_m shr_r shr_s Z.b2z].
  rewrite Z.div_1_r, Z.mod_1_r. cbn [Z.eqb]. lia.
Qed.

Lemma SFmul_nonneg x mc ec :
  bounded prec emax mc ec = true ->
  SpecFloat.valid_binary prec emax x = true ->
  nonneg x = true ->
  nonneg (SFmul prec emax x (S754_finite false mc ec)) = true.
Proof.
  intros Bc Vx Nx. destruct x as [s|[|]| |[|] mx ex]; try discriminate;
    cbn [SFmul xorb]; try reflexivity.
  cbn [SpecFloat.valid_binary] in Vx.
  destruct (bra_spec false (Zpos (mx * mc)) (ex + ec) loc_Exact
              (Zpos (mx * mc)) 1 ltac:(lia) ltac:(lia) ltac:(lia)
              (rank_exact _) (mul_shift_ok _ _ _ _ Vx Bc))
    as (mrs & _ & P & _ & _ & ->).
  apply finish_nonneg. pose proof (rne_bounds mrs). lia.
Qed.

Theorem SFmul_mono x y mc ec :
  bounded prec emax mc ec = true ->
  SpecFloat.valid_binary prec emax x = true ->
  SpecFloat.valid_binary prec emax y = true ->
  nonneg x = true ->
  SFleb x y = true ->
  SFleb (SFmul prec emax x (S754_finite false mc ec))
        (SFmul prec emax y (S754_finite false mc ec)) = true.
Proof.
  intros Bc Vx Vy Nx Hle.
  assert (Ny : nonneg y = true).
  { destruct x as [?|[|]| |[|] ? ?], y as [?|[|]| |[|] ? ?];
      try discriminate; reflexivity. }
  destruct x as [sx|[|]| |[|] mx ex]; try discriminate.
  - apply SFleb_zero_l. apply SFmul_nonneg; assumption.
  - destruct y as [?|[|]| |[|] ? ?]; try discriminate. reflexivity.
  - destruct y as [sy|[|]| |[|] my ey]; try discriminate.
    + cbn [SFmul xorb]. apply SFleb_inf_r.
      apply (SFmul_nonneg (S754_finite false mx ex)); assumption.
    + cbn [SFmul xorb]. cbn [SpecFloat.valid_binary] in Vx, Vy.
      apply bra_mono with (A1 := Zpos (mx * mc)) (B1 := 1)
                          (A2 := Zpos (my * mc)) (B2 := 1);
        try lia; try apply rank_exact; try (apply mul_shift_ok; assumption).
      pose proof (order_of_leb mx ex my ey Vx Vy Hle) as Ho.
      replace (ex + ec - Z.min (ex + ec) (ey + ec)) with (ex - Z.min ex ey) by lia.
      replace (ey + ec - Z.min (ex + ec) (ey + ec)) with (ey - Z.min ex ey) by lia.
      rewrite !Pos2Z.inj_mul. nia.
Qed.

Lemma new_location_rank A B :
  0 <= A -> 0 < B ->
  rank (shr_record_of_loc (A / B) (new_location B (A mod B))) = rk A B.
Proof.
  intros HA HB.
  pose proof (Z.div_mod A B ltac:(lia)) as E.
  pose proof (Z.mod_pos_bound A B HB) as Hr.
  set (q := A / B) in *. set (r := A mod B) in *.
  assert (Hrk : rk A B = 4 * q + (if r =? 0 then 0
                                   else if 2 * r <? B then 1
                                   else if 2 * r =? B then 2 else 3)).
  { unfold rk.
    destruct (Z.ltb_spec (2 * r) B) as [Hlt|Hge].
    - replace (2 * A / B) with (2 * q)
        by (apply Z.div_unique with (2 * r); lia).
      replace ((2 * A) mod B) with (2 * r)
        by (apply Z.mod_unique with (2 * q); lia).
      destruct (Z.eqb_spec r 0), (Z.eqb_spec (2 * r) 0); lia.
    - replace (2 * A / B) with (2 * q + 1)
        by (apply Z.div_unique with (2 * r - B); lia).
      replace ((2 * A) mod B) with (2 * r - B)
        by (apply Z.mod_unique with (2 * q + 1); lia).
      destruct (Z.eqb_spec r 0), (Z.eqb_spec (2 * r - B) 0),
        (Z.eqb_spec (2 * r) B); lia. }
  rewrite Hrk. unfold new_location, new_location_even, new_location_odd.
  destruct (Z.even B) eqn:Ev.
  - destruct (Z.eqb_spec r 0) as [Hz|Hne];
      [unfold rank; cbn [shr_record_of_loc shr_m shr_r shr_s Z.b2z]; lia|].
    destruct (Z.compare_spec (2 * r) B);
      destruct (Z.ltb_spec (2 * r) B), (Z.eqb_spec (2 * r) B); try lia;
      unfold rank; cbn [shr_record_of_loc shr_m shr_r shr_s Z.b2z]; lia.
  - assert (Hodd : Z.odd B = true) by (rewrite <- Z.negb_even, Ev; reflexivity).
    apply Z.odd_spec in Hodd. destruct Hodd as [k Hk].
    destruct (Z.eqb_spec r 0) as [Hz|Hne];
      [unfold rank; cbn [shr_record_of_loc shr_m shr_r shr_s Z.b2z]; lia|].
    destruct (Z.compare_spec (2 * r + 1) B);
      destruct (Z.ltb_spec (2 * r) B), (Z.eqb_spec (2 * r) B); try lia;
      unfold rank; cbn [shr_record_of_loc shr_m shr_r shr_s Z.b2z]; lia.
Qed.


Lemma div_core_spec m1 e1 m2 e2 :
  0 < m1 -> 0 < m2 ->
  let e' := div_exp prec emax m1 e1 m2 e2 in
  let A := m1 * 2 ^ (e1 - e2 - e') in
  SFdiv_core_binary prec emax m1 e1 m2 e2 =
    (A / m2, e', new_location m2 (A mod m2)).
Proof.
  intros H1 H2 e' A. unfold SFdiv_core_binary. fold (div_exp prec emax m1 e1 m2 e2).
  fold e'. subst A.
  assert (Hs : 0 <= e1 - e2 - e') by (subst e'; unfold div_exp; lia).
  assert (Hm : match e1 - e2 - e' with
               | Z0 => m1
               | Zpos _ => Z.shiftl m1 (e1 - e2 - e')
               | Zneg _ => 0
               end = m1 * 2 ^ (e1 - e2 - e')).
  { destruct (e1 - e2 - e') as [|p|p] eqn:Es; try lia.
    rewrite Z.shiftl_mul_pow2 by lia. reflexivity. }
  rewrite Hm. unfold Z.div, Z.modulo.
  destruct (Z.div_eucl (m1 * 2 ^ (e1 - e2 - e')) m2). reflexivity.
Qed.

Lemma div_shift_ok m1 e1 m2 e2 :
  0 < m1 -> 0 < m2 -> Zdigits2 m1 <= prec ->
  let e' := div_exp prec emax m1 e1 m2 e2 in
  let q := m1 * 2 ^ (e1 - e2 - e') / m2 in
  e' <= fexp prec emax (Zdigits2 q + e').
Proof.
  intros H1 H2 Hd e' q.
  destruct (Z.le_gt_cases e' (SpecFloat.emin prec emax)) as [Hle|Hgt].
  - unfold fexp. lia.
  - assert (He : e' <= Zdigits2 m1 + e1 - (Zdigits2 m2 + e2) - prec /\ e' <= e1 - e2).
    { subst e'. unfold div_exp, fexp in *. lia. }
    destruct (Zdigits2_bounds m1 H1) as [Lo1 _].
    destruct (Zdigits2_bounds m2 H2) as [_ Hi2].
    assert (D1 : 1 <= Zdigits2 m1).
    { apply (Zdigits2_ge m1 0); [lia|]. change (2 ^ 0) with 1. lia. }
    assert (D2 : 1 <= Zdigits2 m2).
    { apply (Zdigits2_ge m2 0); [lia|]. change (2 ^ 0) with 1. lia. }
    set (s := e1 - e2 - e') in *.
    assert (Hs : prec - Zdigits2 m1 + Zdigits2 m2 <= s) by lia.
    assert (Hq : 2 ^ (prec - 1) <= q).
    { subst q. apply Z.div_le_lower_bound; [lia|].
      assert (Hp : 2 ^ (prec - 1 + Zdigits2 m2) <= m1 * 2 ^ s).
      { replace (prec - 1 + Zdigits2 m2)
          with ((Zdigits2 m1 - 1) + (prec - Zdigits2 m1 + Zdigits2 m2)) by lia.
        rewrite Z.pow_add_r by lia.
        assert (2 ^ (prec - Zdigits2 m1 + Zdigits2 m2) <= 2 ^ s)
          by (apply Z.pow_le_mono_r; lia).
        assert (0 < 2 ^ (prec - Zdigits2 m1 + Zdigits2 m2))
          by (apply Z.pow_pos_nonneg; lia).
        assert (0 < 2 ^ (Zdigits2 m1 - 1)) by (apply Z.pow_pos_nonneg; lia).
        nia. }
      rewrite Z.pow_add_r in Hp by lia.
      assert (0 < 2 ^ (prec - 1)) by (apply Z.pow_pos_nonneg; lia).
      nia. }
    assert (prec <= Zdigits2 q).
    { replace prec with ((prec - 1) + 1) by lia. apply Zdigits2_ge; lia. }
    unfold fexp. lia.
Qed.

Lemma canonical_digits m e :
  bounded prec emax m e = true -> Zdigits2 (Zpos m) <= prec.
Proof.
  intros Bm. destruct (canonical_inv _ _ Bm) as [C _].
  cbn [Zdigits2]. unfold fexp in C. lia.
Qed.

Lemma SFdiv_finite mx ex mc ec :
  let e' := div_exp prec emax (Zpos mx) ex (Zpos mc) ec in
  let A := Zpos mx * 2 ^ (ex - ec - e') in
  SFdiv prec emax (S754_finite false mx ex) (S754_finite false mc ec) =
  binary_round_aux prec emax false (A / Zpos mc) e'
    (new_location (Zpos mc) (A mod Zpos mc)).
Proof.
  intros e' A. cbn [SFdiv xorb].
  rewrite div_core_spec by lia. reflexivity.
Qed.

Lemma SFdiv_nonneg x mc ec :
  SpecFloat.valid_binary prec emax x = true ->
  nonneg x = true ->
  nonneg (SFdiv prec emax x (S754_finite false mc ec)) = true.
Proof.
  intros Vx Nx. destruct x as [s|[|]| |[|] mx ex]; try discriminate;
    try reflexivity.
  rewrite SFdiv_finite. cbn [SpecFloat.valid_binary] in Vx.
  set (e' := div_exp prec emax (Zpos mx) ex (Zpos mc) ec).
  set (A := Zpos mx * 2 ^ (ex - ec - e')).
  assert (Hs : 0 <= ex - ec - e') by (subst e'; unfold div_exp; lia).
  assert (HA : 0 <= A)
    by (subst A; pose proof (Z.pow_pos_nonneg 2 (ex - ec - e')); nia).
  destruct (bra_spec false (A / Zpos mc) e' (new_location (Zpos mc) (A mod Zpos mc))
              A (Zpos mc) HA ltac:(lia) ltac:(apply Z.div_pos; lia)
              (new_location_rank A (Zpos mc) HA ltac:(lia))
              (div_shift_ok (Zpos mx) ex (Zpos mc) ec ltac:(lia) ltac:(lia)
                 (canonical_digits _ _ Vx)))
    as (mrs & _ & P & _ & _ & ->).
  apply finish_nonneg. pose proof (rne_bounds mrs). lia.
Qed.

Theorem SFdiv_mono x y mc ec :
  SpecFloat.valid_binary prec emax x = true ->
  SpecFloat.valid_binary prec emax y = true ->
  nonneg x = true ->
  SFleb x y = true ->
  SFleb (SFdiv prec emax x (S754_finite false mc ec))
        (SFdiv prec emax y (S754_finite false mc ec)) = true.
Proof.
  intros Vx Vy Nx Hle.
  assert (Ny : nonneg y = true).
  { destruct x as [?|[|]| |[|] ? ?], y as [?|[|]| |[|] ? ?];
      try discriminate; reflexivity. }
  destruct x as [sx|[|]| |[|] mx ex]; try discriminate.
  - apply SFleb_zero_l. apply SFdiv_nonneg; assumption.
  - destruct y as [?|[|]| |[|] ? ?]; try discriminate. reflexivity.
  - destruct y as [sy|[|]| |[|] my ey]; try discriminate.
    + change (SFdiv prec emax (S754_infinity false) (S754_finite false mc ec))
        with (S754_infinity false).
      apply SFleb_inf_r.
      apply (SFdiv_nonneg (S754_finite false mx ex)); assumption.
    + rewrite !SFdiv_finite. cbn [SpecFloat.valid_binary] in Vx, Vy.
      set (e1 := div_exp prec emax (Zpos mx) ex (Zpos mc) ec).
      set (e2 := div_exp prec emax (Zpos my) ey (Zpos mc) ec).
      set (A1 := Zpos mx * 2 ^ (ex - ec - e1)).
      set (A2 := Zpos my * 2 ^ (ey - ec - e2)).
      assert (Hs1 : 0 <= ex - ec - e1) by (subst e1; unfold div_exp; lia).
      assert (Hs2 : 0 <= ey - ec - e2) by (subst e2; unfold div_exp; lia).
      assert (HA1 : 0 <= A1)
        by (subst A1; pose proof (Z.pow_pos_nonneg 2 (ex - ec - e1)); nia).
      assert (HA2 : 0 <= A2)
        by (subst A2; pose proof (Z.pow_pos_nonneg 2 (ey - ec - e2)); nia).
      apply bra_mono with (A1 := A1) (B1 := Zpos mc) (A2 := A2) (B2 := Zpos mc);
        try lia; try (apply Z.div_pos; lia);
        try (apply new_location_rank; lia);
        try (apply div_shift_ok; try lia; eapply canonical_digits; eassumption).
      pose proof (order_of_leb mx ex my ey Vx Vy Hle) as Ho.
      set (L := Z.min ex ey) in *. set (L' := Z.min e1 e2).
      set (t := L - ec - L').
      assert (Ht : 0 <= t) by lia.
      assert (E1 : A1 * 2 ^ (e1 - L') = Zpos mx * 2 ^ (ex - L) * 2 ^ t).
      { subst A1. rewrite <- !Z.mul_assoc, <- !Z.pow_add_r by lia.
        f_equal. f_equal. lia. }
      assert (E2 : A2 * 2 ^ (e2 - L') = Zpos my * 2 ^ (ey - L) * 2 ^ t).
      { subst A2. rewrite <- !Z.mul_assoc, <- !Z.pow_add_r by lia.
        f_equal. f_equal. lia. }
      rewrite E1, E2.
      assert (0 < 2 ^ t) by (apply Z.pow_pos_nonneg; lia).
      nia.
Qed.

End Round.

(** ** Binary64 products and quotients are monotone *)



Lemma Prim2SF_infinity : Prim2SF infinity = S754_infinity false.
Proof. reflexivity. Qed.

Lemma nonneg_of_leb (x : float) :
  (0 <=? x)%float = true -> nonneg (Prim2SF x) = true.
Proof.
  rewrite leb_spec, Prim2SF_zero.
  destruct (Prim2SF x) as [?|[|]| |[|] ? ?]; cbn; congruence.
Qed.

Lemma leb_of_nonneg (x : float) :
  nonneg (Prim2SF x) = true -> (0 <=? x)%float = true.
Proof.
  rewrite leb_spec, Prim2SF_zero.
  destruct (Prim2SF x) as [?|[|]| |[|] ? ?]; cbn; congruence.
Qed.

Lemma positivo_finito_inv (c : float) :
  positivo_finito c = true ->
  exists mc ec, Prim2SF c = S754_finite false mc ec /\
                bounded prec emax mc ec = true.
Proof.
  unfold positivo_finito. rewrite andb_true_iff, !ltb_spec.
  rewrite Prim2SF_zero, Prim2SF_infinity. intros [Hpos Hfin].
  pose proof (Prim2SF_valid c) as Hv.
  destruct (Prim2SF c) as [?|[|]| |[|] mc ec]; try discriminate.
  exists mc, ec. split; [reflexivity|exact Hv].
Qed.

Theorem float_mul_mono (x y c : float) :
  (0 <=? x)%float = true -> (x <=? y)%float = true ->
  positivo_finito c = true ->
  (x * c <=? y * c)%float = true /\ (0 <=? x * c)%float = true.
Proof.
  intros Hx Hxy Hc.
  destruct (positivo_finito_inv c Hc) as (mc & ec & Ec & Bc).
  apply nonneg_of_leb in Hx. rewrite leb_spec in Hxy.
  split.
  - rewrite leb_spec, !mul_spec, Ec.
    apply SFmul_mono; try assumption; try apply Prim2SF_valid;
      unfold prec, emax; lia.
  - apply leb_of_nonneg. rewrite mul_spec, Ec.
    apply SFmul_nonneg; try assumption; try apply Prim2SF_valid;
      unfold prec, emax; lia.
Qed.

Theorem float_div_mono (x y c : float) :
  (0 <=? x)%float = true -> (x <=? y)%float = true ->
  positivo_finito c = true ->
  (x / c <=? y / c)%float = true /\ (0 <=? x / c)%float = true.
Proof.
  intros Hx Hxy Hc.
  destruct (positivo_finito_inv c Hc) as (mc & ec & Ec & Bc).
  apply nonneg_of_leb in Hx. rewrite leb_spec in Hxy.
  split.
  - rewrite leb_spec, !div_spec, Ec.
    apply SFdiv_mono; try assumption; try apply Prim2SF_valid;
      unfold prec, emax; lia.
  - apply leb_of_nonneg. rewrite div_spec, Ec.
    apply SFdiv_nonneg; try assumption; try apply Prim2SF_valid;
      unfold prec, emax; lia.
Qed.

(** ** Monotonicity in the capacity *)

(** C6, as stated, fails: in binary64 the two capacities
    1000.0000000000001 < 1000.0000000000002 give the same four results
    under the parameters of the end-to-end scenario (their products by 4.5
    round to the same number). *)
Lemma beneficio_not_strictly_increasing :
  (capacidad_a <? capacidad_b)%float = true /\
  beneficio escenario_e2e capacidad_a "Mediana (1 MW)" =
  beneficio escenario_e2e capacidad_b "Mediana (1 MW)".
Proof. vm_compute. split; reflexivity. Qed.

(** C6, amended.  For positive finite H, PR, days and fuel constants,
    the four outputs of the benefit calculation are non-decreasing
    functions of a non-negative capacity in binary64: a larger capacity
    never gives a smaller energy, diesel volume, CO2 mass or cost.  (They
    are not strictly increasing: rounding can give two capacities the same
    outputs.) *)
Theorem beneficio_non_decreasing :
  forall g c1 c2 label,
    positivo_finito (H g) = true ->
    positivo_finito (PR g) = true ->
    positivo_finito (float_of_int (dias g)) = true ->
    positivo_finito (kwh_por_litro g) = true ->
    positivo_finito (co2_por_litro g) = true ->
    positivo_finito (cop_diesel g) = true ->
    (0 <=? c1)%float = true ->
    (c1 <=? c2)%float = true ->
    let r1 := beneficio g c1 label in
    let r2 := beneficio g c2 label in
    resultados (snd (calcular_beneficios c1 label g)) = (resultados g ++ [r1])%list /\
    resultados (snd (calcular_beneficios c2 label g)) = (resultados g ++ [r2])%list /\
    (Energia_kWh r1 <=? Energia_kWh r2)%float = true /\
    (Diesel_Ahorrado_L r1 <=? Diesel_Ahorrado_L r2)%float = true /\
    (CO2_Evitado_kg r1 <=? CO2_Evitado_kg r2)%float = true /\
    (Ahorro_Economico_COP r1 <=? Ahorro_Economico_COP r2)%float = true.
Proof.
  intros g c1 c2 label HH HPR Hd Hk Hco Hcop H0 H12 r1 r2.
  assert (Hnz : (kwh_por_litro g =? 0)%float = false).
  { apply eqb_zero_of_pos. unfold positivo_finito in Hk.
    apply andb_true_iff in Hk. tauto. }
  split; [rewrite calcular_beneficios_nonzero by exact Hnz; reflexivity|].
  split; [rewrite calcular_beneficios_nonzero by exact Hnz; reflexivity|].
  subst r1 r2. unfold beneficio, BenefitResult.
  cbn [Energia_kWh Diesel_Ahorrado_L CO2_Evitado_kg Ahorro_Economico_COP].
  destruct (float_mul_mono c1 c2 (H g) H0 H12 HH) as [M1 N1].
  destruct (float_mul_mono _ _ (PR g) N1 M1 HPR) as [M2 N2].
  destruct (float_mul_mono _ _ (float_of_int (dias g)) N2 M2 Hd) as [M3 N3].
  destruct (float_div_mono _ _ (kwh_por_litro g) N3 M3 Hk) as [M4 N4].
  destruct (float_mul_mono _ _ (co2_por_litro g) N4 M4 Hco) as [M5 _].
  destruct (float_mul_mono _ _ (cop_diesel g) N4 M4 Hcop) as [M6 _].
  repeat split; assumption.
Qed.

Lemma beneficio_non_decreasing_witness :
  (Energia_kWh (beneficio escenario_e2e 100 "Pequeña (100 kW)") <=?
   Energia_kWh (beneficio escenario_e2e 1000 "Pequeña (100 kW)"))%float = true.
Proof.
  exact (proj1 (proj2 (proj2
           (beneficio_non_decreasing escenario_e2e 100%float 1000%float
              "Pequeña (100 kW)" eq_refl eq_refl eq_refl eq_refl eq_refl
              eq_refl eq_refl eq_refl)))).
Defined.

(** ** Whole runs *)

(** X1.  The outcome of a run is decided by the file's header, by
    whether its kind column holds text, and by the sidebar: ValueError
    without the date column, else KeyError without the kind column, else
    AttributeError when the kind column is not text, else ValueError
    without the value column, else ZeroDivisionError when the
    kWh-per-litre input is zero and a tier is checked, and a normal return
    in every other case. *)
Theorem run_outcome :
  forall file ui, fst (run file ui) = resultado_esperado file ui.
Proof.
  intros file ui. unfold resultado_esperado.
  destruct (run_casos file ui)
    as [[Hf Hc]|[(Hf & Ht & Hc)|[(Hf & Ht & Hx & Hc)|[(Hf & Ht & Hx & Ha & Hc)|[Hl _]]]]].
  - rewrite Hc, Hf. reflexivity.
  - rewrite Hc, Hf, Ht. reflexivity.
  - rewrite Hc, Hf, Ht, Hx. reflexivity.
  - rewrite Hc, Hf, Ht, Hx, Ha. reflexivity.
  - destruct (llega_a_beneficios_inv file Hl) as (Hf & Ha & Ht & Hx).
    rewrite Hf, Ht, Hx, Ha. cbn [negb].
    destruct (input_kwh ui =? 0)%float eqn:Hk; cbn [andb].
    + destruct (algun_escenario ui) eqn:Hact.
      * rewrite run_error_cero by assumption. reflexivity.
      * rewrite run_ok by (try assumption; now right). reflexivity.
    + rewrite run_ok by (try assumption; now left). reflexivity.
Qed.



(** X3.  The page of a run that completes is, in this order: the
    sidebar's eleven widgets, the title with the two overview lines, the
    demand chart, the benefits section (per checked tier an expander and
    its four metrics), the comparison bar chart when at least one tier is
    checked and nothing in its place otherwise, and the closing note. *)
Theorem run_page :
  forall file ui,
    fst (run file ui) = inr tt ->
    page (snd (run file ui)) =
      (barra_lateral ++ titulo ++
       [PlotlyChart (grafica (normalizado (cargado file)))] ++
       seccion_beneficios ui ++ barras (resultados_ui ui) ++ [nota])%list /\
    (barras (resultados_ui ui) = [] <->
     (check_pequena ui || check_mediana ui || check_grande ui)%bool = false) /\
    List.length (filter es_metrica (page (snd (run file ui)))) =
      (4 * List.length (resultados_ui ui))%nat.
Proof.
  intros file ui Hr. destruct (run_completo file ui Hr) as [Hl Hd].
  rewrite run_ok by assumption. cbn [snd].
  change (page (set_page ?p ?g)) with p.
  assert (Hp : page (tras_grafica file ui) =
               (barra_lateral ++ titulo ++
                [PlotlyChart (grafica (normalizado (cargado file)))])%list).
  { unfold tras_grafica, tras_deteccion, tras_filtro, tras_parametros,
      con_parametros.
    cbn [page set_page set_fig set_inicio_pred set_df set_df_sim
         set_df_predicha df start].
    change (([] : list Element) ++ barra_lateral)%list with barra_lateral.
    rewrite <- !app_assoc. reflexivity. }
  rewrite Hp. split; [now rewrite <- !app_assoc|]. split.
  - unfold resultados_ui.
    destruct (check_pequena ui), (check_mediana ui), (check_grande ui);
      cbn; split; congruence.
  - rewrite !filter_app.
    unfold seccion_beneficios, resultados_ui.
    destruct (check_pequena ui), (check_mediana ui), (check_grande ui);
      reflexivity.
Qed.

Lemma run_page_witness :
  List.length (filter es_metrica
                 (page (snd (run archivo_ejemplo barra_por_defecto)))) =
  (4 * List.length (resultados_ui barra_por_defecto))%nat.
Proof.
  assert (Hr : fst (run archivo_ejemplo barra_por_defecto) = inr tt)
    by (vm_compute; reflexivity).
  exact (proj2 (proj2 (run_page archivo_ejemplo barra_por_defecto Hr))).
Defined.

(** ** The first predicted date *)

Lemma fold_left_min_spec r : forall x,
  In (fold_left Z.min r x) (x :: r) /\
  forall y, In y (x :: r) -> fold_left Z.min r x <= y.
Proof.
  induction r as [|a r IH]; intros x; cbn [fold_left].
  - split; [now left|]. intros y [<-|[]]. lia.
  - destruct (IH (Z.min x a)) as [Hin Hle]. split.
    + destruct Hin as [Hm|Hin]; [|now right; right].
      rewrite <- Hm. destruct (Z.min_spec x a) as [[_ ->]|[_ ->]];
        [now left|now right; left].
    + intros y Hy.
      assert (Hmin : fold_left Z.min r (Z.min x a) <= Z.min x a)
        by (apply Hle; now left).
      destruct Hy as [<-|[<-|Hy]]; [lia|lia|].
      apply Hle. now right.
Qed.

Lemma series_min_spec l :
  match series_min l with
  | Some m => In m l /\ forall y, In y l -> m <= y
  | None => l = []
  end.
Proof.
  destruct l as [|x r]; [reflexivity|]. cbn [series_min].
  apply fold_left_min_spec.
Qed.

Lemma run_inicio_pred file ui :
  has_column "Fecha" file = true ->
  has_column "Tipo" file = true ->
  Tipo_es_texto file = true ->
  inicio_pred (snd (run file ui)) = inicio_de (normalizado (cargado file)).
Proof.
  intros Hf Ht Hx.
  destruct (run_casos file ui)
    as [[Hf' _]|[(_ & Ht' & _)|[(_ & _ & Hx' & _)|[(_ & _ & _ & _ & Hc)|[_ Hc]]]]];
    try congruence; rewrite Hc.
  - reflexivity.
  - assert (Hp : preserves inicio_pred desde_beneficios)
      by (unfold desde_beneficios, beneficios_por_escenario, comparativa,
            nota_final, calcular_beneficios; preserva).
    rewrite Hp. reflexivity.
Qed.

Lemma In_normalizado file r' :
  In r' (rows (normalizado (cargado file))) <->
  exists r, In r (rows file) /\ r' = normalizar r.
Proof.
  unfold normalizado, cargado. cbn [rows].
  split.
  - intros Hin.
    apply (Permutation_in _ (Permutation_sym (FechaSort.Permuted_sort _))) in Hin.
    apply in_map_iff in Hin. destruct Hin as (r & <- & Hr).
    apply (Permutation_in _ (Permutation_sym (FechaSort.Permuted_sort _))) in Hr.
    now exists r.
  - intros (r & Hr & ->).
    apply (Permutation_in _ (FechaSort.Permuted_sort _)).
    apply in_map.
    apply (Permutation_in _ (FechaSort.Permuted_sort _)). exact Hr.
Qed.

(** A record is shown as predicted when, after the labels were
    capitalised, it passes the selector of the detection block. *)
Lemma se_muestra_predicha_iff r :
  se_muestra_predicha r <-> es_Predicha (normalizar r) = true.
Proof.
  unfold se_muestra_predicha, es_Predicha. cbn [normalizar Tipo].
  destruct (Tipo r) as [s| |x|b]; cbn [capitalizar eq_str].
  - rewrite String.eqb_eq. split.
    + intros (s' & Hs & Hc). injection Hs as <-. exact Hc.
    + intros Hc. now exists s.
  - split; [intros (s' & Hs & _); discriminate Hs|discriminate].
  - split; [intros (s' & Hs & _); discriminate Hs|discriminate].
  - split; [intros (s' & Hs & _); discriminate Hs|discriminate].
Qed.

(** X4.  The date found by the detection block is the earliest date
    among the records whose label capitalises to "Predicha": it is the
    date of one of them and no such record is earlier; it is [None]
    exactly when the file has no such record. *)
Theorem inicio_pred_is_earliest :
  forall file ui,
    has_column "Fecha" file = true ->
    has_column "Tipo" file = true ->
    match inicio_pred (snd (run file ui)) with
    | Some d =>
        (exists r, In r (rows file) /\ se_muestra_predicha r /\ Fecha r = d) /\
        (forall r, In r (rows file) -> se_muestra_predicha r -> d <= Fecha r)
    | None => forall r, In r (rows file) -> ~ se_muestra_predicha r
    end.
Proof.
  intros file ui Hf Ht.
  destruct (Tipo_es_texto file) eqn:Hx.
  2:{ rewrite run_sin_texto by assumption. cbn [snd].
      change (inicio_pred (tras_titulo file ui)) with (@None Z).
      intros r Hr (s & Hs & _).
      assert (Ht' : es_texto (Tipo r) = false)
        by (apply (sin_texto (map Tipo (rows file))); [exact Hx|now apply in_map]).
      rewrite Hs in Ht'. discriminate Ht'. }
  rewrite run_inicio_pred by assumption.
  unfold inicio_de. set (d := normalizado (cargado file)).
  assert (Hpred : forall r, In r (rows file) -> se_muestra_predicha r ->
                    In (Fecha r) (map Fecha (filter es_Predicha (rows d)))).
  { intros r Hr Hp. apply in_map_iff. exists (normalizar r). split; [reflexivity|].
    apply filter_In. split.
    - apply In_normalizado. now exists r.
    - apply se_muestra_predicha_iff, Hp. }
  destruct (existsb (eq_str "Predicha") (map Tipo (rows d))) eqn:Hex.
  - pose proof (series_min_spec (map Fecha (filter es_Predicha (rows d)))) as Hs.
    destruct (series_min (map Fecha (filter es_Predicha (rows d)))) as [m|].
    + destruct Hs as [Hin Hle]. split.
      * apply in_map_iff in Hin. destruct Hin as (r' & Hm & Hr').
        apply filter_In in Hr'. destruct Hr' as [Hr' Hp].
        apply In_normalizado in Hr'. destruct Hr' as (r & Hr & ->).
        exists r. split; [exact Hr|]. split; [|exact Hm].
        apply se_muestra_predicha_iff, Hp.
      * intros r Hr Hp. apply Hle, Hpred; assumption.
    + intros r Hr Hp. pose proof (Hpred r Hr Hp) as Hin.
      rewrite Hs in Hin. exact Hin.
  - intros r Hr Hp.
    assert (Hin : In (Tipo (normalizar r)) (map Tipo (rows d))).
    { apply in_map, In_normalizado. now exists r. }
    assert (Hex' : existsb (eq_str "Predicha") (map Tipo (rows d)) = true).
    { apply existsb_exists. exists (Tipo (normalizar r)). split; [exact Hin|].
      apply se_muestra_predicha_iff, Hp. }
    congruence.
Qed.

Lemma inicio_pred_is_earliest_witness :
  match inicio_pred (snd (run archivo_mayusculas barra_por_defecto)) with
  | Some d =>
      (exists r, In r (rows archivo_mayusculas) /\ se_muestra_predicha r /\
                 Fecha r = d) /\
      (forall r, In r (rows archivo_mayusculas) -> se_muestra_predicha r ->
                 d <= Fecha r)
  | None => forall r, In r (rows archivo_mayusculas) -> ~ se_muestra_predicha r
  end.
Proof.
  exact (inicio_pred_is_earliest archivo_mayusculas barra_por_defecto
           eq_refl eq_refl).
Defined.

(** ** The sidebar *)

(** X6.  Reading the sidebar never raises, whatever the user has set:
    the first word of each of the three horizon options is a number, so
    [dias] becomes 7, 15 or 30, and the text "<dias> días" that the
    benefits caption prints is the selected option itself; the other
    parameters are the widgets' values and the frames are not touched. *)
Theorem parametros_reads_the_sidebar :
  forall ui g,
    fst (parametros ui g) = inr tt /\
    let g' := snd (parametros ui g) in
    In (horizonte g') ["7 días"; "15 días"; "30 días"] /\
    In (dias g') [7; 15; 30] /\
    str_of_int (dias g') ++ " días" = horizonte g' /\
    H g' = slider_H ui /\ PR g' = slider_PR ui /\
    kwh_por_litro g' = input_kwh ui /\
    co2_por_litro g' = input_co2 ui /\
    cop_diesel g' = input_cop ui /\
    escenarios g' = tres_escenarios ui /\
    df g' = df g /\ resultados g' = resultados g.
Proof.
  intros ui g. rewrite parametros_ok. cbn [fst snd].
  split; [reflexivity|].
  unfold con_parametros.
  cbn [horizonte dias H PR kwh_por_litro co2_por_litro cop_diesel escenarios
       df resultados].
  destruct (select_horizonte ui); cbn [option_of nth dias_de];
    repeat split; cbn; tauto.
Qed.

(** ** The demand chart *)

(** X7.  Whenever the run gets past the normalisation of the labels
    (the file has the three columns and its labels are text), the demand
    chart is drawn, also when the benefits section fails later, from the
    frame as the run leaves it: by date (x), value (y) and label (colour),
    its records in date order, each of them a record of the file with its
    label capitalised, and as many records as the file has lines. *)
Theorem demand_chart_frame :
  forall file ui,
    llega_a_beneficios file = true ->
    let d := df (snd (run file ui)) in
    In (PlotlyChart (LineFigure d "Fecha" "ACTIVA" "Tipo")) (page (snd (run file ui))) /\
    fig (snd (run file ui)) = Some (LineFigure d "Fecha" "ACTIVA" "Tipo") /\
    StronglySorted por_fecha (rows d) /\
    (forall r', In r' (rows d) <->
                exists r, In r (rows file) /\ r' = normalizar r) /\
    List.length (rows d) = List.length (rows file).
Proof.
  intros file ui Hc d.
  destruct (llega_a_beneficios_inv file Hc) as (Hf & Ha & Ht & Hx).
  assert (Hd : d = normalizado (cargado file)) by (apply run_df; assumption).
  rewrite Hd. rewrite run_con_columnas by exact Hc.
  split; [|split; [|split; [|split]]].
  - destruct (desde_beneficios_page (tras_grafica file ui)) as [es ->].
    apply in_or_app. left.
    change (page (tras_grafica file ui))
      with (page (tras_deteccion file ui) ++
            [PlotlyChart (grafica (df (tras_deteccion file ui)))])%list.
    apply in_or_app. right. left. reflexivity.
  - assert (Hp : preserves fig desde_beneficios)
      by (unfold desde_beneficios, beneficios_por_escenario, comparativa,
            nota_final, calcular_beneficios; preserva).
    rewrite Hp. reflexivity.
  - apply sort_por_fecha.
  - intros r'. apply In_normalizado.
  - unfold normalizado, cargado. cbn [rows].
    rewrite <- (Permutation_length (FechaSort.Permuted_sort _)), length_map.
    rewrite <- (Permutation_length (FechaSort.Permuted_sort _)). reflexivity.
Qed.

Lemma demand_chart_frame_witness :
  StronglySorted por_fecha
    (rows (df (snd (run archivo_ejemplo barra_kwh_cero)))).
Proof.
  exact (proj1 (proj2 (proj2 (demand_chart_frame archivo_ejemplo
                                barra_kwh_cero eq_refl)))).
Defined.

(** ** Monotonicity in the irradiance and the performance ratio *)

Lemma SFmul_comm prec emax x y : SFmul prec emax x y = SFmul prec emax y x.
Proof.
  destruct x as [sx|sx| |sx mx ex], y as [sy|sy| |sy my ey];
    cbn [SFmul]; try (rewrite (xorb_comm sx sy)); try reflexivity.
  rewrite (Pos.mul_comm mx my), (Z.add_comm ex ey). reflexivity.
Qed.

Lemma float_mul_comm (x y : float) : (x * y = y * x)%float.
Proof.
  rewrite <- (SF2Prim_Prim2SF (x * y)), <- (SF2Prim_Prim2SF (y * x)).
  rewrite !mul_spec. unfold SF64mul. rewrite SFmul_comm. reflexivity.
Qed.

(** X8.  With a positive finite capacity, days and fuel constants, the
    four outputs never decrease when the irradiance H grows (PR positive
    finite), nor when the performance ratio grows (the product of the
    capacity and H positive finite). *)
Theorem beneficio_non_decreasing_in_H_and_PR :
  forall g capacidad_kw label v1 v2,
    positivo_finito capacidad_kw = true ->
    positivo_finito (float_of_int (dias g)) = true ->
    positivo_finito (kwh_por_litro g) = true ->
    positivo_finito (co2_por_litro g) = true ->
    positivo_finito (cop_diesel g) = true ->
    (0 <=? v1)%float = true ->
    (v1 <=? v2)%float = true ->
    let le r1 r2 :=
      (Energia_kWh r1 <=? Energia_kWh r2)%float = true /\
      (Diesel_Ahorrado_L r1 <=? Diesel_Ahorrado_L r2)%float = true /\
      (CO2_Evitado_kg r1 <=? CO2_Evitado_kg r2)%float = true /\
      (Ahorro_Economico_COP r1 <=? Ahorro_Economico_COP r2)%float = true in
    (positivo_finito (PR g) = true ->
     le (beneficio (set_H v1 g) capacidad_kw label)
        (beneficio (set_H v2 g) capacidad_kw label)) /\
    (positivo_finito (capacidad_kw * H g) = true ->
     le (beneficio (set_PR v1 g) capacidad_kw label)
        (beneficio (set_PR v2 g) capacidad_kw label)).
Proof.
  intros g c label v1 v2 Hc Hd Hk Hco Hcop H0 H12 le. subst le.
  unfold beneficio, BenefitResult.
  cbn [Energia_kWh Diesel_Ahorrado_L CO2_Evitado_kg Ahorro_Economico_COP
       H PR dias kwh_por_litro co2_por_litro cop_diesel set_H set_PR].
  split.
  - intros HPR.
    rewrite (float_mul_comm c v1), (float_mul_comm c v2).
    destruct (float_mul_mono v1 v2 c H0 H12 Hc) as [M1 N1].
    destruct (float_mul_mono _ _ (PR g) N1 M1 HPR) as [M2 N2].
    destruct (float_mul_mono _ _ (float_of_int (dias g)) N2 M2 Hd) as [M3 N3].
    destruct (float_div_mono _ _ (kwh_por_litro g) N3 M3 Hk) as [M4 N4].
    destruct (float_mul_mono _ _ (co2_por_litro g) N4 M4 Hco) as [M5 _].
    destruct (float_mul_mono _ _ (cop_diesel g) N4 M4 Hcop) as [M6 _].
    repeat split; assumption.
  - intros HcH.
    rewrite (float_mul_comm (c * H g) v1), (float_mul_comm (c * H g) v2).
    destruct (float_mul_mono v1 v2 (c * H g) H0 H12 HcH) as [M2 N2].
    destruct (float_mul_mono _ _ (float_of_int (dias g)) N2 M2 Hd) as [M3 N3].
    destruct (float_div_mono _ _ (kwh_por_litro g) N3 M3 Hk) as [M4 N4].
    destruct (float_mul_mono _ _ (co2_por_litro g) N4 M4 Hco) as [M5 _].
    destruct (float_mul_mono _ _ (cop_diesel g) N4 M4 Hcop) as [M6 _].
    repeat split; assumption.
Qed.

Lemma beneficio_non_decreasing_in_H_and_PR_witness :
  (Energia_kWh (beneficio (set_H 1 escenario_e2e) 1000 "Mediana (1 MW)") <=?
   Energia_kWh (beneficio (set_H 8 escenario_e2e) 1000 "Mediana (1 MW)"))%float
  = true.
Proof.
  exact (proj1 (proj1 (beneficio_non_decreasing_in_H_and_PR escenario_e2e
                         1000%float "Mediana (1 MW)" 1%float 8%float
                         eq_refl eq_refl eq_refl eq_refl eq_refl eq_refl eq_refl)
                      eq_refl)).
Defined.

(** ** Where an aborted run stops *)

(** X9.  With a kWh-per-litre input of zero and a checked tier, a run
    that reaches the benefits section (the three columns, text labels)
    stops inside the first checked tier: the page ends with the benefits
    heading, its caption and that tier's expander; the comparison chart
    and the closing note are not drawn and the result list is empty. *)
Theorem zero_division_stops_at_first_tier :
  forall file ui,
    llega_a_beneficios file = true ->
    (input_kwh ui =? 0)%float = true ->
    (check_pequena ui || check_mediana ui || check_grande ui)%bool = true ->
    page (snd (run file ui)) =
      (barra_lateral ++ titulo ++
       [PlotlyChart (grafica (normalizado (cargado file)));
        Subheader "🌞 Beneficios por Escenario Solar";
        leyenda_beneficios (dias_de (select_horizonte ui));
        Expander ("🔋 Resultados para " ++ hd "" (activos (tres_escenarios ui)))])%list /\
    ~ In nota (page (snd (run file ui))) /\
    resultados (snd (run file ui)) = [].
Proof.
  intros file ui Hc Hk Hact.
  rewrite run_error_cero by assumption.
  cbn [snd].
  assert (Hp : page (set_page
                 (page (inicio_beneficios (tras_grafica file ui)) ++
                  [Expander ("🔋 Resultados para " ++
                             hd "" (activos (tres_escenarios ui)))])
                 (inicio_beneficios (tras_grafica file ui))) =
               (barra_lateral ++ titulo ++
                [PlotlyChart (grafica (normalizado (cargado file)));
                 Subheader "🌞 Beneficios por Escenario Solar";
                 leyenda_beneficios (dias_de (select_horizonte ui));
                 Expander ("🔋 Resultados para " ++
                           hd "" (activos (tres_escenarios ui)))])%list).
  { unfold inicio_beneficios, tras_grafica, tras_deteccion, tras_filtro,
      tras_parametros, con_parametros.
    cbn [page set_page set_resultados set_fig set_inicio_pred set_df
         set_df_sim set_df_predicha df dias start].
    change (([] : list Element) ++ barra_lateral)%list with barra_lateral.
    rewrite <- !app_assoc. reflexivity. }
  rewrite Hp. split; [reflexivity|]. split; [|reflexivity].
  rewrite !in_app_iff. cbn [In barra_lateral titulo leyenda_demanda
                             leyenda_beneficios nota].
  intros [Hin|[Hin|Hin]];
    repeat (destruct Hin as [Hin|Hin]; [discriminate Hin|]); exact Hin.
Qed.

Lemma zero_division_stops_at_first_tier_witness :
  resultados (snd (run archivo_ejemplo barra_kwh_cero)) = [].
Proof.
  exact (proj2 (proj2 (zero_division_stops_at_first_tier archivo_ejemplo
                         barra_kwh_cero eq_refl eq_refl eq_refl))).
Defined.

(** X10.  Where a run stops on a file with a missing column, or with a
    kind column that is not text: without the date column nothing is
    drawn, not even the sidebar; without the kind column only the sidebar
    is drawn; with a kind column that is not text the run ends with
    AttributeError after the sidebar, the title and the two overview
    lines, the frame still as loaded; without the value column the same
    elements are drawn, and the frame has already been filtered and, when
    its labels are text, normalised. *)
Theorem missing_column_pages :
  forall file ui,
    (has_column "Fecha" file = false ->
     page (snd (run file ui)) = []) /\
    (has_column "Fecha" file = true -> has_column "Tipo" file = false ->
     page (snd (run file ui)) = barra_lateral) /\
    (has_column "Fecha" file = true -> has_column "Tipo" file = true ->
     Tipo_es_texto file = false ->
     fst (run file ui) = inl AttributeError /\
     page (snd (run file ui)) = (barra_lateral ++ titulo)%list /\
     df (snd (run file ui)) = cargado file /\
     df_predicha (snd (run file ui)) = predichos (cargado file)) /\
    (has_column "Fecha" file = true -> has_column "Tipo" file = true ->
     has_column "ACTIVA" file = false ->
     page (snd (run file ui)) = (barra_lateral ++ titulo)%list /\
     (Tipo_es_texto file = true ->
      df (snd (run file ui)) = normalizado (cargado file)) /\
     df_predicha (snd (run file ui)) = predichos (cargado file)).
Proof.
  intros file ui. split; [|split; [|split]].
  - intros Hf. rewrite run_sin_Fecha by exact Hf. reflexivity.
  - intros Hf Ht. rewrite run_sin_Tipo by assumption. reflexivity.
  - intros Hf Ht Hx. rewrite run_sin_texto by assumption.
    repeat split; reflexivity.
  - intros Hf Ht Ha. destruct (Tipo_es_texto file) eqn:Hx.
    + rewrite run_sin_ACTIVA by assumption. repeat split; reflexivity.
    + rewrite run_sin_texto by assumption.
      split; [reflexivity|]. split; [discriminate|reflexivity].
Qed.

Lemma missing_column_pages_witness :
  page (snd (run archivo_sin_Tipo barra_por_defecto)) = barra_lateral /\
  fst (run archivo_numerico barra_por_defecto) = inl AttributeError /\
  fst (run archivo_en_blanco barra_por_defecto) = inl AttributeError.
Proof.
  destruct (missing_column_pages archivo_sin_Tipo barra_por_defecto)
    as (_ & H2 & _).
  destruct (missing_column_pages archivo_numerico barra_por_defecto)
    as (_ & _ & H3 & _).
  destruct (missing_column_pages archivo_en_blanco barra_por_defecto)
    as (_ & _ & H4 & _).
  exact (conj (H2 eq_refl eq_refl)
           (conj (proj1 (H3 eq_refl eq_refl eq_refl))
                 (proj1 (H4 eq_refl eq_refl eq_refl)))).
Defined.
